(** * Issue importer: a shallow embedding of [index.js] and its properties

    The importer reads issue records (decoded from CSV or JSON), normalizes
    each one, validates assignees against the repository's collaborators,
    resolves milestones and creates the issues through the GitHub client.

    The embedding follows the JavaScript source function by function.
    - JavaScript values are an inductive type [JsVal]; strings are sequences
      of UTF-8 bytes ([string]), numbers are [JsNum].
    - [async] functions run strictly in sequence, so they are computations in
      a monad [M] that threads the state of the remote service, collects the
      observable events (log lines, outputs, remote requests, pauses) and may
      throw.
    - The GitHub client ([octokit]) is an argument of the functions, as in the
      source: a record of state transformers over an arbitrary state type. *)

From Stdlib Require Import ZArith String Ascii Bool Lia.
From stdpp Require Import base option list gmap strings.

Local Open Scope Z_scope.

(* ===================================================================== *)
(** ** Strings *)
(* ===================================================================== *)

Module Str.

Definition code (c : ascii) : Z := Z.of_N (N_of_ascii c).

Definition chr (z : Z) : ascii := ascii_of_N (Z.to_N z).

(** One-byte white space: TAB, LF, VT, FF, CR, SP. *)
Definition ws1 (a : Z) : bool :=
  ((9 <=? a) && (a <=? 13)) || (a =? 32).

(** Two-byte white space: U+00A0. *)
Definition ws2 (a b : Z) : bool :=
  (a =? 194) && (b =? 160).

(** Three-byte white space: U+1680, U+2000..U+200A, U+2028, U+2029, U+202F,
    U+205F, U+3000 and U+FEFF. *)
Definition ws3 (a b c : Z) : bool :=
  ((a =? 225) && (b =? 154) && (c =? 128))
  || ((a =? 226) && (b =? 128)
      && (((128 <=? c) && (c <=? 138)) || (c =? 168) || (c =? 169) || (c =? 175)))
  || ((a =? 226) && (b =? 129) && (c =? 159))
  || ((a =? 227) && (b =? 128) && (c =? 128))
  || ((a =? 239) && (b =? 187) && (c =? 191)).

(** Strip the white space characters at the front of [s].  With
    [back = true] the bytes of every character are expected in reverse
    order, which is how the end of a string is trimmed. *)
Fixpoint strip (back : bool) (s : string) : string :=
  match s with
  | String a s1 =>
    if ws1 (code a) then strip back s1 else
    match s1 with
    | String b s2 =>
      if (if back then ws2 (code b) (code a) else ws2 (code a) (code b))
      then strip back s2 else
      match s2 with
      | String c s3 =>
        if (if back then ws3 (code c) (code b) (code a)
            else ws3 (code a) (code b) (code c))
        then strip back s3 else s
      | EmptyString => s
      end
    | EmptyString => s
    end
  | EmptyString => s
  end.

Definition trimStart (s : string) : string := strip false s.

Definition trimEnd (s : string) : string :=
  String.rev (strip true (String.rev s)).

(** [String.prototype.trim]. *)
Definition trim (s : string) : string := trimEnd (trimStart s).

(** [s.replace(/;/g, ',')]. *)
Fixpoint replaceSemicolons (s : string) : string :=
  match s with
  | EmptyString => EmptyString
  | String c r =>
    String (if Ascii.eqb c ";" then ","%char else c) (replaceSemicolons r)
  end.

(** [s.split(sep)] for a one-character separator; the empty string splits
    into one empty piece. *)
Fixpoint splitOn (sep : ascii -> bool) (s : string) : list string :=
  match s with
  | EmptyString => [EmptyString]
  | String c r =>
    if sep c then EmptyString :: splitOn sep r
    else match splitOn sep r with
         | p :: ps => String c p :: ps
         | [] => [String c EmptyString]
         end
  end.

Definition split (sep : ascii) (s : string) : list string :=
  splitOn (Ascii.eqb sep) s.

(** [xs.join(sep)]. *)
Fixpoint join (sep : string) (xs : list string) : string :=
  match xs with
  | [] => EmptyString
  | [x] => x
  | x :: rest => x +:+ sep +:+ join sep rest
  end.

Definition nonEmpty (s : string) : bool :=
  match s with EmptyString => false | String _ _ => true end.

(** The one-character string made of a double quote. *)
Definition quote : string := String (chr 34) EmptyString.

Definition isDigit (c : ascii) : bool :=
  (48 <=? code c) && (code c <=? 57).

End Str.

(* ===================================================================== *)
(** ** Numbers *)
(* ===================================================================== *)

(** A JavaScript number is an IEEE 754 double.  The program only inspects
    integer-valued numbers (milestone and issue numbers, the results of
    [parseInt]), so these carry their value; a finite number that is not an
    integer carries its canonical rendering, which is all the program can
    observe of it. *)
Inductive JsNum : Type :=
  | NaN
  | Infinity (negative : bool)
  | Int (z : Z)
  | Frac (repr : string).

Module Num.

(** Decimal digits of a natural number, most significant first. *)
Fixpoint digitsAux (fuel : nat) (n : Z) (acc : string) : string :=
  match fuel with
  | O => acc
  | S f =>
    if n <? 10 then String (Str.chr (48 + n)) acc
    else digitsAux f (n / 10) (String (Str.chr (48 + n mod 10)) acc)
  end.

Definition digits (n : Z) : string :=
  digitsAux (S (Z.to_nat (Z.log2 n))) n "".

Definition decimal (z : Z) : string :=
  if z <? 0 then String "-" (digits (- z)) else digits z.

(** Value of the longest prefix of decimal digits of [s], continuing from
    [acc]. *)
Fixpoint parseDigits (s : string) (acc : Z) : Z :=
  match s with
  | String c r =>
    if Str.isDigit c then parseDigits r (10 * acc + (Str.code c - 48)) else acc
  | EmptyString => acc
  end.

(** The double nearest to the integer [z] (ties to even). *)
Definition roundDouble (z : Z) : JsNum :=
  let a := Z.abs z in
  if a <? 2 ^ 53 then Int z else
  let sh := Z.log2 a - 52 in
  let q := Z.shiftr a sh in
  let r := a - Z.shiftl q sh in
  let half := 2 ^ (sh - 1) in
  let q' := if (half <? r) || ((r =? half) && Z.odd q) then q + 1 else q in
  let m := Z.shiftl q' sh in
  if 2 ^ 1024 <=? m then Infinity (z <? 0) else Int (Z.sgn z * m).

Definition roundsTo (x v : Z) : bool :=
  match roundDouble x with
  | Int y => y =? v
  | _ => false
  end.

(** The integer with the fewest significant digits that rounds to the
    double [v], the nearest one when several have as few ([v >= 2^53], [d]
    its number of digits, [k] the number of significant digits tried). *)
Fixpoint shortest (fuel : nat) (k d v : Z) : Z :=
  match fuel with
  | O => v
  | S f =>
    if d <=? k then v else
    let p := 10 ^ (d - k) in
    let lo := (v / p) * p in
    let hi := lo + p in
    match roundsTo lo v, roundsTo hi v with
    | true, true =>
      if v - lo <? hi - v then lo
      else if hi - v <? v - lo then hi
      else if Z.even (lo / p) then lo else hi
    | true, false => lo
    | false, true => hi
    | false, false => shortest f (k + 1) d v
    end
  end.

Fixpoint dropZeros (s : string) : string :=
  match s with
  | String "0" r => dropZeros r
  | _ => s
  end.

(** [d.ddde+N], the rendering of an integer from 10^21 on. *)
Definition exponential (y : Z) : string :=
  let ds := digits y in
  let e := Z.of_nat (String.length ds) - 1 in
  match String.rev (dropZeros (String.rev ds)) with
  | String c EmptyString => String c ("e+" +:+ digits e)
  | String c r => String c ("." +:+ r +:+ "e+" +:+ digits e)
  | EmptyString => "0"
  end.

(** [Number.prototype.toString] on a natural number. *)
Definition natToString (a : Z) : string :=
  if a <? 2 ^ 53 then digits a else
  let y := shortest 17 1 (Z.of_nat (String.length (digits a))) a in
  if y <? 10 ^ 21 then digits y else exponential y.

(** [Number.prototype.toString] (radix 10). *)
Definition toString (n : JsNum) : string :=
  match n with
  | NaN => "NaN"
  | Infinity false => "Infinity"
  | Infinity true => "-Infinity"
  | Int z => if z <? 0 then String "-" (natToString (- z)) else natToString z
  | Frac repr => repr
  end.

(** [!n]: zero and NaN are falsy. *)
Definition falsy (n : JsNum) : bool :=
  match n with
  | NaN => true
  | Int z => z =? 0
  | _ => false
  end.

Definition isNaN (n : JsNum) : bool :=
  match n with NaN => true | _ => false end.

(** [parseInt(s, 10)] on a string: leading white space is skipped, one
    sign is accepted, the longest run of digits is read and the rest is
    ignored; without a digit the result is [NaN]. *)
Definition parseInt (s : string) : JsNum :=
  let t := Str.trimStart s in
  let '(neg, u) :=
    match t with
    | String c r =>
      if Ascii.eqb c "-" then (true, r)
      else if Ascii.eqb c "+" then (false, r)
      else (false, t)
    | EmptyString => (false, t)
    end in
  match u with
  | String c _ =>
    if Str.isDigit c then
      let n := parseDigits u 0 in
      roundDouble (if neg then - n else n)
    else NaN
  | EmptyString => NaN
  end.

End Num.

(* ===================================================================== *)
(** ** Values *)
(* ===================================================================== *)

(** The values a decoded CSV row or JSON element is made of.  An object
    lists its own properties, each key once. *)
#[warnings="-register-all"]
Inductive JsVal : Type :=
  | JUndefined
  | JNull
  | JBool (b : bool)
  | JNum (n : JsNum)
  | JStr (s : string)
  | JArr (elems : list JsVal)
  | JObj (fields : list (string * JsVal)).

Module Js.

Fixpoint assoc (key : string) (fields : list (string * JsVal)) : option JsVal :=
  match fields with
  | [] => None
  | (k, v) :: rest => if String.eqb k key then Some v else assoc key rest
  end.

(** [!!v]. *)
Definition truthy (v : JsVal) : bool :=
  match v with
  | JUndefined | JNull => false
  | JBool b => b
  | JNum n => negb (Num.falsy n)
  | JStr s => Str.nonEmpty s
  | JArr _ | JObj _ => true
  end.

(** [a || b]. *)
Definition or (a b : JsVal) : JsVal := if truthy a then a else b.

(** [v.key] for the property names this program reads ([title], [body],
    [description], [labels], [assignees], [milestone]), none of which is
    defined on a prototype: [None] when [v] is [null] or [undefined] (the
    access throws a TypeError), [undefined] when [v] has no such own
    property. *)
Definition prop (v : JsVal) (key : string) : option JsVal :=
  match v with
  | JUndefined | JNull => None
  | JObj fields => Some (default JUndefined (assoc key fields))
  | _ => Some JUndefined
  end.

(** [v?.key]. *)
Definition optProp (v : JsVal) (key : string) : JsVal :=
  default JUndefined (prop v key).

(** The conversion to a string done by template literals, [parseInt] and
    [toString()].  An object decoded from JSON holds no function, so when
    it has an own property named [toString] the conversion finds nothing to
    call and throws a TypeError: [None]. *)
Fixpoint toStr (v : JsVal) : option string :=
  match v with
  | JUndefined => Some "undefined"
  | JNull => Some "null"
  | JBool b => Some (if b then "true" else "false")
  | JNum n => Some (Num.toString n)
  | JStr s => Some s
  | JArr elems =>
    (fix joined (l : list JsVal) : option string :=
       let elem (x : JsVal) :=
         match x with
         | JUndefined | JNull => Some ""
         | _ => toStr x
         end in
       match l with
       | [] => Some ""
       | [x] => elem x
       | x :: rest =>
         match elem x, joined rest with
         | Some a, Some b => Some (a +:+ "," +:+ b)
         | _, _ => None
         end
       end) elems
  | JObj fields =>
    match assoc "toString" fields with
    | Some _ => None
    | None => Some "[object Object]"
    end
  end.

End Js.

(* ===================================================================== *)
(** ** The remote service, events and the monad of [async] functions *)
(* ===================================================================== *)

(** One entry of the [errors] array of a 422 response. *)
Record FieldError : Type := {
  fe_field : option string;
  fe_code : option string;
  fe_message : option string
}.

(** The error a request of the client is rejected with. *)
Record RemoteError : Type := {
  re_message : string;
  re_status : option Z;
  re_errors : option (list FieldError);     (* error.response?.data?.errors *)
  re_documentation_url : option string
}.

(** What a [throw] or a rejected promise carries. *)
Inductive Thrown : Type :=
  | JsError (message : string)              (* Error and TypeError *)
  | Rejected (e : RemoteError).

Definition thrownMessage (t : Thrown) : string :=
  match t with
  | JsError m => m
  | Rejected e => re_message e
  end.

(** [error.status === code]. *)
Definition statusIs (error : Thrown) (code : Z) : bool :=
  match error with
  | Rejected e => if re_status e is Some status then status =? code else false
  | JsError _ => false
  end.

(** [error.response?.data?.errors], when truthy. *)
Definition responseErrors (error : Thrown) : option (list FieldError) :=
  match error with
  | Rejected e => re_errors e
  | JsError _ => None
  end.

(** [context.repo]. *)
Record Context : Type := { owner : string; repo : string }.

(** The argument of [octokit.rest.issues.create]; [None] is a key that is
    not set. *)
Record Payload : Type := {
  p_owner : string;
  p_repo : string;
  p_title : string;
  p_body : JsVal;
  p_labels : option (list string);
  p_assignees : option (list string);
  p_milestone : option JsNum
}.

Record Milestone : Type := { m_title : string; m_number : Z }.

Record CreateResponse : Type := { r_number : Z; r_html_url : string }.

Inductive Reply (A : Type) : Type :=
  | Resolved (a : A)
  | Failure (e : RemoteError).
Arguments Resolved {A} a.
Arguments Failure {A} e.

(** The GitHub client: each request answers and moves the service to its
    next state. *)
Record Octokit (St : Type) : Type := {
  listMilestones : string -> string -> string -> St -> Reply (list Milestone) * St;
  checkCollaborator : string -> string -> string -> St -> Reply unit * St;
  issuesCreate : Payload -> St -> Reply CreateResponse * St
}.
Arguments listMilestones {St} _ _ _ _ _.
Arguments checkCollaborator {St} _ _ _ _ _.
Arguments issuesCreate {St} _ _ _.

(** What the action does to the outside, in order. *)
Inductive Event : Type :=
  | EvInfo (msg : string)
  | EvWarning (msg : string)
  | EvError (msg : string)
  | EvDebug (msg : string)
  | EvStartGroup (name : string)
  | EvEndGroup
  | EvSetOutput (name value : string)
  | EvSetFailed (msg : string)
  | EvListMilestones (owner repo state : string)
  | EvCheckCollaborator (owner repo username : string)
  | EvIssuesCreate (payload : Payload)
  | EvSleep (ms : Z).

Definition isRemoteCall (e : Event) : bool :=
  match e with
  | EvListMilestones _ _ _ | EvCheckCollaborator _ _ _ | EvIssuesCreate _ => true
  | _ => false
  end.

Definition isSetFailed (e : Event) : bool :=
  match e with EvSetFailed _ => true | _ => false end.

Definition isWarning (e : Event) : bool :=
  match e with EvWarning _ => true | _ => false end.

Inductive Res (A : Type) : Type :=
  | Ok (a : A)
  | Throw (t : Thrown).
Arguments Ok {A} a.
Arguments Throw {A} t.

(** A computation: from the state of the service to a result, the next
    state and the events emitted on the way. *)
Definition M (St A : Type) : Type := St -> Res A * St * list Event.

Section Monad.
Context {St : Type}.

Definition ret {A} (a : A) : M St A := fun s => (Ok a, s, []).

Definition bind {A B} (m : M St A) (k : A -> M St B) : M St B :=
  fun s =>
    match m s with
    | (Ok a, s1, ev1) => let '(r, s2, ev2) := k a s1 in (r, s2, ev1 ++ ev2)
    | (Throw t, s1, ev1) => (Throw t, s1, ev1)
    end.

Definition throw {A} (t : Thrown) : M St A := fun s => (Throw t, s, []).

(** [try { m } catch (error) { h error }]. *)
Definition tryCatch {A} (m : M St A) (h : Thrown -> M St A) : M St A :=
  fun s =>
    match m s with
    | (Ok a, s1, ev1) => (Ok a, s1, ev1)
    | (Throw t, s1, ev1) => let '(r, s2, ev2) := h t s1 in (r, s2, ev1 ++ ev2)
    end.

Definition emit (e : Event) : M St unit := fun s => (Ok tt, s, [e]).

(** [await] of a request: the request is recorded, the service answers. *)
Definition request {A} (e : Event) (call : St -> Reply A * St) : M St A :=
  fun s =>
    match call s with
    | (Resolved a, s1) => (Ok a, s1, [e])
    | (Failure err, s1) => (Throw (Rejected err), s1, [e])
    end.

(** A conversion to string that may throw. *)
Definition toStringM (v : JsVal) : M St string :=
  match Js.toStr v with
  | Some s => ret s
  | None => throw (JsError "Cannot convert object to primitive value")
  end.

End Monad.

#[global] Instance M_ret {St} : MRet (M St) := fun A => @ret St A.
#[global] Instance M_bind {St} : MBind (M St) := fun A B k m => @bind St A B m k.

Definition core_info {St} (msg : string) : M St unit := emit (EvInfo msg).
Definition core_warning {St} (msg : string) : M St unit := emit (EvWarning msg).
Definition core_error {St} (msg : string) : M St unit := emit (EvError msg).
Definition core_debug {St} (msg : string) : M St unit := emit (EvDebug msg).
Definition core_setOutput {St} (name value : string) : M St unit :=
  emit (EvSetOutput name value).
Definition core_setFailed {St} (msg : string) : M St unit := emit (EvSetFailed msg).

(** The rendering of a count or an index. *)
Definition showNat (n : nat) : string := Num.toString (Int (Z.of_nat n)).

(* ===================================================================== *)
(** ** The program *)
(* ===================================================================== *)

(** A validated issue, as built by [validateIssue]. *)
Record NormalizedIssue : Type := {
  title : string;
  body : JsVal;
  labels : list string;
  assignees : list string;
  milestone : option JsNum                  (* [None] is [null] *)
}.

(** An element of [results]: [{status: 'created', title, number, url}],
    [{status: 'dry-run', title, number: 'DRY-RUN'}] or
    [{status: 'failed', title, error}]. *)
Inductive ImportOutcome : Type :=
  | Created (title : string) (number : Z) (url : string)
  | DryRun (title : string)
  | Failed (title : JsVal) (error : string).

(** [x => x && typeof x === 'string'], with the elements that pass. *)
Definition nonEmptyStrings (elems : list JsVal) : list string :=
  omap (fun x => match x with
                 | JStr s => if Str.nonEmpty s then Some s else None
                 | _ => None
                 end) elems.

Definition parseLabels (labels : JsVal) : list string :=
  if negb (Js.truthy labels) then [] else
  match labels with
  | JArr elems => nonEmptyStrings elems
  | JStr s =>
    let normalized := Str.replaceSemicolons s in
    filter (fun label => Is_true (Str.nonEmpty label))
           (map Str.trim (Str.split "," normalized))
  | _ => []
  end.

Definition parseAssignees (assignees : JsVal) : list string :=
  if negb (Js.truthy assignees) then [] else
  match assignees with
  | JArr elems => nonEmptyStrings elems
  | JStr s =>
    let normalized := Str.replaceSemicolons s in
    filter (fun assignee => Is_true (Str.nonEmpty assignee))
           (map Str.trim (Str.split "," normalized))
  | _ => []
  end.

Section Program.
Context {St : Type}.
Implicit Types (octokit : Octokit St) (context : Context).

(** The body of the [for ... of] loop of [validateAssignees]. *)
Definition checkAssignee octokit context (validAssignees : list string)
    (assignee : string) : M St (list string) :=
  tryCatch
    (request (EvCheckCollaborator (owner context) (repo context) assignee)
             (checkCollaborator octokit (owner context) (repo context) assignee) ≫= fun _ =>
     core_debug ("✅ Assignee '" +:+ assignee +:+ "' is valid") ≫= fun _ =>
     mret (validAssignees ++ [assignee]))
    (fun error =>
       (if statusIs error 404
        then core_warning ("⚠️ Assignee '" +:+ assignee
                           +:+ "' is not a collaborator of this repository. Skipping.")
        else core_warning ("⚠️ Could not validate assignee '" +:+ assignee +:+ "': "
                           +:+ thrownMessage error +:+ ". Skipping.")) ≫= fun _ =>
       mret validAssignees).

Fixpoint checkAssignees octokit context (validAssignees : list string)
    (rest : list string) : M St (list string) :=
  match rest with
  | [] => mret validAssignees
  | assignee :: rest' =>
    checkAssignee octokit context validAssignees assignee ≫= fun valid' =>
    checkAssignees octokit context valid' rest'
  end.

(** [assignees] is [None] when the caller passes [null]. *)
Definition validateAssignees octokit context (assignees : option (list string))
    : M St (list string) :=
  match assignees with
  | None | Some [] => mret []
  | Some candidates => checkAssignees octokit context [] candidates
  end.

(** [new Map()] filled by [milestoneMap.set(milestone.title, milestone.number)]. *)
Definition milestoneMapOf (data : list Milestone) : gmap string Z :=
  foldl (fun m ms => <[m_title ms := m_number ms]> m) ∅ data.

Definition getMilestoneMapping octokit context : M St (gmap string Z) :=
  tryCatch
    (request (EvListMilestones (owner context) (repo context) "all")
             (listMilestones octokit (owner context) (repo context) "all") ≫= fun data =>
     let milestoneMap := milestoneMapOf data in
     core_info ("📋 Found " +:+ showNat (size milestoneMap)
                +:+ " milestones in repository") ≫= fun _ =>
     mret milestoneMap)
    (fun error =>
       core_warning ("Failed to fetch milestones: " +:+ thrownMessage error) ≫= fun _ =>
       mret ∅).

(** [milestoneMap.get(key)]: the keys of the map are titles, so only a
    string is ever found. *)
Definition mapGet (milestoneMap : gmap string Z) (key : JsVal) : option Z :=
  match key with
  | JStr s => milestoneMap !! s
  | _ => None
  end.

Definition resolveMilestone (milestone : JsVal) (milestoneMap : gmap string Z)
    : M St (option JsNum) :=
  if negb (Js.truthy milestone) then mret None else
  match milestone with
  | JNum n => mret (Some n)
  | _ =>
    (* parseInt converts its argument to a string; milestone.toString()
       yields the same string *)
    toStringM milestone ≫= fun str =>
    let parsed := Num.parseInt str in
    if negb (Num.isNaN parsed) && String.eqb (Num.toString parsed) str
    then mret (Some parsed)
    else match mapGet milestoneMap milestone with
         | Some number => mret (Some (Int number))
         | None =>
           core_warning ("Milestone " +:+ Str.quote +:+ str +:+ Str.quote
                         +:+ " not found in repository. "
                         +:+ "Issue will be created without milestone.") ≫= fun _ =>
           mret None
         end
  end.

Definition missingTitle (index : nat) : Thrown :=
  JsError ("Issue at index " +:+ showNat index +:+ " is missing a valid title").

(** [!issue.title || typeof issue.title !== 'string' || issue.title.trim() === ''],
    with the title when the test is false. *)
Definition validTitle (t : JsVal) : option string :=
  if negb (Js.truthy t) then None else
  match t with
  | JStr s => if String.eqb (Str.trim s) "" then None else Some s
  | _ => None
  end.

Definition validateIssue octokit context (issue : JsVal) (index : nat)
    (milestoneMap : gmap string Z) : M St NormalizedIssue :=
  match Js.prop issue "title" with
  | None =>
    throw (JsError ("Cannot read properties of "
                    +:+ (if issue is JNull then "null" else "undefined")
                    +:+ " (reading 'title')"))
  | Some t =>
    match validTitle t with
    | None => throw (missingTitle index)
    | Some s =>
      let parsedAssignees := parseAssignees (Js.optProp issue "assignees") in
      validateAssignees octokit context (Some parsedAssignees) ≫= fun validAssignees =>
      let body := Js.or (Js.optProp issue "body")
                        (Js.or (Js.optProp issue "description") (JStr "")) in
      let labels := parseLabels (Js.optProp issue "labels") in
      resolveMilestone (Js.optProp issue "milestone") milestoneMap ≫= fun milestone =>
      mret {| title := Str.trim s; body := body; labels := labels;
              assignees := validAssignees; milestone := milestone |}
    end
  end.

(** [xs.join(', ') || 'None']. *)
Definition joinedOrNone (xs : list string) : string :=
  let j := Str.join ", " xs in
  if Str.nonEmpty j then j else "None".

(** [issue.milestone || 'None'], rendered. *)
Definition milestoneOrNone (m : option JsNum) : string :=
  match m with
  | Some n => if Num.falsy n then "None" else Num.toString n
  | None => "None"
  end.

(** The object [payload] as it is when the request is sent. *)
Definition buildPayload context (issue : NormalizedIssue) : Payload :=
  {| p_owner := owner context;
     p_repo := repo context;
     p_title := title issue;
     p_body := body issue;
     p_labels := if (0 <? Z.of_nat (length (labels issue)))
                 then Some (labels issue) else None;
     p_assignees := if (0 <? Z.of_nat (length (assignees issue)))
                    then Some (assignees issue) else None;
     p_milestone := match milestone issue with
                    | Some n => if Num.falsy n then None else Some n
                    | None => None
                    end |}.

(** [`${err.field}: ${err.code} - ${err.message || 'Validation failed'}`]. *)
Definition fieldErrorText (err : FieldError) : string :=
  default "undefined" (fe_field err) +:+ ": "
  +:+ default "undefined" (fe_code err) +:+ " - "
  +:+ match fe_message err with
      | Some m => if Str.nonEmpty m then m else "Validation failed"
      | None => "Validation failed"
      end.

(** [errorMessage] of the [catch] block of [createIssue]. *)
Definition errorMessageOf (error : Thrown) : string :=
  if statusIs error 422 then
    match responseErrors error with
    | Some errors =>
      "Validation Failed: " +:+ Str.join "; " (map fieldErrorText errors)
    | None => thrownMessage error
    end
  else thrownMessage error.

Definition documentationUrl (error : Thrown) : option string :=
  match error with
  | Rejected e =>
    match re_documentation_url e with
    | Some u => if Str.nonEmpty u then Some u else None
    | None => None
    end
  | JsError _ => None
  end.

Definition createIssue octokit context (issue : NormalizedIssue) (dryRun : bool)
    : M St ImportOutcome :=
  if dryRun then
    core_info ("[DRY RUN] Would create issue: " +:+ Str.quote +:+ title issue
               +:+ Str.quote) ≫= fun _ =>
    core_info ("  Labels: " +:+ joinedOrNone (labels issue)) ≫= fun _ =>
    core_info ("  Assignees: " +:+ joinedOrNone (assignees issue)) ≫= fun _ =>
    core_info ("  Milestone: " +:+ milestoneOrNone (milestone issue)) ≫= fun _ =>
    mret (DryRun (title issue))
  else
    tryCatch
      (let payload := buildPayload context issue in
       request (EvIssuesCreate payload) (issuesCreate octokit payload) ≫= fun response =>
       core_info ("✅ Created issue #" +:+ Num.toString (Int (r_number response))
                  +:+ ": " +:+ Str.quote +:+ title issue +:+ Str.quote) ≫= fun _ =>
       mret (Created (title issue) (r_number response) (r_html_url response)))
      (fun error =>
         let errorMessage := errorMessageOf error in
         core_error ("❌ Failed to create issue " +:+ Str.quote +:+ title issue
                     +:+ Str.quote +:+ ": " +:+ errorMessage) ≫= fun _ =>
         match documentationUrl error with
         | Some u => core_error ("📚 See: " +:+ u)
         | None => mret tt
         end ≫= fun _ =>
         mret (Failed (JStr (title issue)) errorMessage)).

(** The variables [results], [successCount] and [failureCount] of [run]. *)
Record LoopState : Type := {
  results : list ImportOutcome;
  successCount : nat;
  failureCount : nat
}.

(** [result.status === 'created' || result.status === 'dry-run']. *)
Definition isSuccess (result : ImportOutcome) : bool :=
  match result with
  | Created _ _ _ | DryRun _ => true
  | Failed _ _ => false
  end.

(** One iteration of the [for] loop of [run], at index [i] of [count]
    records.  Nothing throws in the [try] block after the two awaited calls,
    so the handler starts from the variables as the iteration found them. *)
Definition processIssue octokit context (count : nat) (milestoneMap : gmap string Z)
    (dryRun : bool) (st : LoopState) (i : nat) (issue : JsVal) : M St LoopState :=
  tryCatch
    (validateIssue octokit context issue i milestoneMap ≫= fun validatedIssue =>
     createIssue octokit context validatedIssue dryRun ≫= fun result =>
     let st' :=
       if isSuccess result
       then {| results := results st ++ [result];
               successCount := S (successCount st);
               failureCount := failureCount st |}
       else {| results := results st ++ [result];
               successCount := successCount st;
               failureCount := S (failureCount st) |} in
     (if negb dryRun && (Z.of_nat i <? Z.of_nat count - 1)
      then emit (EvSleep 100) else mret tt) ≫= fun _ =>
     mret st')
    (fun error =>
       core_error ("❌ Failed to process issue at index " +:+ showNat i +:+ ": "
                   +:+ thrownMessage error) ≫= fun _ =>
       mret {| results := results st
                 ++ [Failed (Js.or (Js.optProp issue "title") (JStr "Unknown"))
                            (thrownMessage error)];
               successCount := successCount st;
               failureCount := S (failureCount st) |}).

(** The [for] loop of [run] from index [i] on. *)
Fixpoint runLoop octokit context (count : nat) (milestoneMap : gmap string Z)
    (dryRun : bool) (st : LoopState) (i : nat) (rest : list JsVal) : M St LoopState :=
  match rest with
  | [] => mret st
  | issue :: rest' =>
    processIssue octokit context count milestoneMap dryRun st i issue ≫= fun st' =>
    runLoop octokit context count milestoneMap dryRun st' (S i) rest'
  end.

Definition summaryOf (st : LoopState) : string :=
  "Import completed: " +:+ showNat (successCount st) +:+ " successful, "
  +:+ showNat (failureCount st) +:+ " failed".

(** The callback of [results.forEach]. *)
Definition logResult (result : ImportOutcome) : M St unit :=
  let status :=
    match result with
    | Created _ _ _ => "✅"
    | DryRun _ => "🔍"
    | Failed _ _ => "❌"
    end in
  let info :=
    match result with
    | Created _ number _ =>
      if number =? 0 then "" else "#" +:+ Num.toString (Int number)
    | DryRun _ => "#DRY-RUN"
    | Failed _ _ => ""
    end in
  toStringM match result with
            | Created t _ _ | DryRun t => JStr t
            | Failed t _ => t
            end ≫= fun shownTitle =>
  core_info (status +:+ " " +:+ shownTitle +:+ " " +:+ info) ≫= fun _ =>
  match result with
  | Failed _ error =>
    if Str.nonEmpty error then core_info ("   Error: " +:+ error) else mret tt
  | _ => mret tt
  end.

Fixpoint logResults (rs : list ImportOutcome) : M St unit :=
  match rs with
  | [] => mret tt
  | r :: rest => logResult r ≫= fun _ => logResults rest
  end.

(** What [run] does once the file is decoded, from the test on the number
    of issues to the end; the issues and the dry-run flag, which the first
    lines of [run] read from the inputs and the file, are arguments. *)
Definition run octokit context (issues : list JsVal) (dryRun : bool) : M St unit :=
  tryCatch
    ((if Nat.eqb (length issues) 0
      then throw (JsError "No issues found in the input file") else mret tt) ≫= fun _ =>
     core_info ("📊 Found " +:+ showNat (length issues) +:+ " issues to import") ≫= fun _ =>
     getMilestoneMapping octokit context ≫= fun milestoneMap =>
     runLoop octokit context (length issues) milestoneMap dryRun
             {| results := []; successCount := 0; failureCount := 0 |} 0 issues ≫= fun st =>
     let summary := summaryOf st in
     core_info ("📈 " +:+ summary) ≫= fun _ =>
     core_setOutput "issues-created" (showNat (successCount st)) ≫= fun _ =>
     core_setOutput "issues-failed" (showNat (failureCount st)) ≫= fun _ =>
     core_setOutput "summary" summary ≫= fun _ =>
     (if 0 <? Z.of_nat (length (results st))
      then emit (EvStartGroup "📋 Import Results") ≫= fun _ =>
           logResults (results st) ≫= fun _ =>
           emit EvEndGroup
      else mret tt) ≫= fun _ =>
     if (0 <? Z.of_nat (failureCount st)) && negb dryRun
     then core_setFailed (showNat (failureCount st) +:+ " issues failed to import")
     else mret tt)
    (fun error => core_setFailed ("Action failed: " +:+ thrownMessage error)).

End Program.

(* ===================================================================== *)
(** ** Reference definitions for the statements *)
(* ===================================================================== *)

(** A comma or a semicolon. *)
Definition isSeparator (c : ascii) : bool :=
  Ascii.eqb c "," || Ascii.eqb c ";".

(** [s] with every comma turned into a semicolon and every semicolon into
    a comma. *)
Fixpoint swapSeparators (s : string) : string :=
  match s with
  | EmptyString => EmptyString
  | String c r =>
    String (if Ascii.eqb c "," then ";"%char
            else if Ascii.eqb c ";" then ","%char else c)
           (swapSeparators r)
  end.

(** The plain reading of "a string whose entire content parses as an
    integer": an optional minus sign, then decimal digits and nothing else;
    the result is the integer read. *)
Fixpoint allDigits (s : string) : bool :=
  match s with
  | EmptyString => true
  | String c r => Str.isDigit c && allDigits r
  end.

Definition parsesEntirelyAs (s : string) : option Z :=
  match s with
  | EmptyString => None
  | String c r =>
    if Ascii.eqb c "-"
    then (if Str.nonEmpty r && allDigits r then Some (- Num.parseDigits r 0) else None)
    else (if allDigits s then Some (Num.parseDigits s 0) else None)
  end.

(** A numeral starts with a digit. *)
Definition startsWithDigit (s : string) : Prop :=
  exists c r, s = String c r /\ Str.isDigit c = true.

(** The candidates the service confirms, asked one after the other from
    state [s], in the order of the candidates. *)
Fixpoint confirmed {St} (octokit : Octokit St) (context : Context)
    (candidates : list string) (s : St) : list string :=
  match candidates with
  | [] => []
  | u :: rest =>
    match checkCollaborator octokit (owner context) (repo context) u s with
    | (Resolved _, s1) => u :: confirmed octokit context rest s1
    | (Failure _, s1) => confirmed octokit context rest s1
    end
  end.

(** No event of [log] reports the run as failed. *)
Definition quiet (log : list Event) : Prop :=
  Forall (fun e => isSetFailed e = false) log.

(** The variables of the loop of [run] once [result] is recorded. *)
Definition record (st : LoopState) (result : ImportOutcome) : LoopState :=
  {| results := results st ++ [result];
     successCount := if isSuccess result then S (successCount st) else successCount st;
     failureCount := if isSuccess result then failureCount st else S (failureCount st) |}.

(** The events of [run] after the loop: the summary line, the three
    outputs, the detailed results and the final status. *)
Definition closing (st : LoopState) (dryRun : bool) (detail : Res unit * list Event)
    : list Event :=
  [EvInfo ("📈 " +:+ summaryOf st);
   EvSetOutput "issues-created" (showNat (successCount st));
   EvSetOutput "issues-failed" (showNat (failureCount st));
   EvSetOutput "summary" (summaryOf st);
   EvStartGroup "📋 Import Results"]
  ++ snd detail
  ++ match fst detail with
     | Ok _ =>
       EvEndGroup
       :: (if (0 <? Z.of_nat (failureCount st)) && negb dryRun
           then [EvSetFailed (showNat (failureCount st) +:+ " issues failed to import")]
           else [])
     | Throw t => [EvSetFailed ("Action failed: " +:+ thrownMessage t)]
     end.

(** A client in the manner of the mocks of the test suite.  Its state counts
    the issues created so far.  The only milestone is [v1], number 10;
    [alice] is a collaborator, [bob] is not (404) and the check of anyone
    else fails; an issue titled [bad] is rejected with two field errors. *)
Definition mockOctokit : Octokit nat := {|
  listMilestones := fun _ _ _ s =>
    (Resolved [ {| m_title := "v1"; m_number := 10 |} ], s);
  checkCollaborator := fun _ _ username s =>
    if String.eqb username "alice" then (Resolved tt, s)
    else if String.eqb username "bob"
    then (Failure {| re_message := "Not Found"; re_status := Some 404;
                     re_errors := None; re_documentation_url := None |}, s)
    else (Failure {| re_message := "API Error"; re_status := None;
                     re_errors := None; re_documentation_url := None |}, s);
  issuesCreate := fun p s =>
    if String.eqb (p_title p) "bad"
    then (Failure {| re_message := "Validation Failed"; re_status := Some 422;
                     re_errors := Some [ {| fe_field := Some "title";
                                            fe_code := Some "invalid";
                                            fe_message := None |};
                                         {| fe_field := Some "labels";
                                            fe_code := Some "custom";
                                            fe_message := Some "too many" |} ];
                     re_documentation_url := None |}, s)
    else (Resolved {| r_number := Z.of_nat s + 1;
                      r_html_url := "https://github.com/test-owner/test-repo/issues/"
                                    +:+ Num.decimal (Z.of_nat s + 1) |}, S s)
|}.

Definition mockContext : Context := {| owner := "test-owner"; repo := "test-repo" |}.

(** Three records, the second without a title. *)
Definition threeRecords : list JsVal :=
  [ JObj [("title", JStr "First"); ("labels", JStr "bug;ui");
          ("assignees", JStr "alice, bob"); ("milestone", JStr "v1")];
    JObj [("body", JStr "no title here")];
    JObj [("title", JStr "Third"); ("description", JStr "text")] ].

(* ===================================================================== *)
(** ** Decoding the JSON file *)
(* ===================================================================== *)

(** [parseJsonFile], from the value [JSON.parse] gives: [decoded] is the
    outcome of reading the file and decoding its text, [Throw] when either
    of the two throws.  Everything happens inside the [try] block, so the
    error the function raises on an unexpected shape is wrapped like the
    errors of the decoder. *)
Definition parseJsonFile (decoded : Res JsVal) : Res (list JsVal) :=
  let failed (error : Thrown) : Res (list JsVal) :=
    Throw (JsError ("Failed to parse JSON file: " +:+ thrownMessage error)) in
  match decoded with
  | Throw error => failed error
  | Ok data =>
    match data with
    | JArr elems => Ok elems
    | _ =>
      match Js.prop data "issues" with
      | None =>
        failed (JsError ("Cannot read properties of "
                         +:+ (if data is JNull then "null" else "undefined")
                         +:+ " (reading 'issues')"))
      | Some (JArr elems) => Ok elems
      | Some _ =>
        failed (JsError ("JSON file must contain an array of issues or an object with an "
                         +:+ Str.quote +:+ "issues" +:+ Str.quote +:+ " array"))
      end
    end
  end.

(* ===================================================================== *)
(** ** Further reference definitions *)
(* ===================================================================== *)

(** The number of the last milestone of [data] titled [t]. *)
Fixpoint lastNumber (t : string) (data : list Milestone) : option Z :=
  match data with
  | [] => None
  | ms :: rest =>
    match lastNumber t rest with
    | Some number => Some number
    | None => if String.eqb (m_title ms) t then Some (m_number ms) else None
    end
  end.

(** Every event of [log] is of a kind [P] accepts. *)
Definition every (P : Event -> bool) (log : list Event) : Prop :=
  Forall (fun e => P e = true) log.

(** Collaborator checks, debug lines and warnings. *)
Definition isValidationEvent (e : Event) : bool :=
  match e with
  | EvCheckCollaborator _ _ _ | EvDebug _ | EvWarning _ => true
  | _ => false
  end.

(** Information lines, error lines and creation requests. *)
Definition isCreationEvent (e : Event) : bool :=
  match e with
  | EvInfo _ | EvError _ | EvIssuesCreate _ => true
  | _ => false
  end.

Definition isInfo (e : Event) : bool :=
  match e with EvInfo _ => true | _ => false end.

Definition isSleep (e : Event) : bool :=
  match e with EvSleep _ => true | _ => false end.

(** Neither a creation request nor a pause. *)
Definition isReadOnly (e : Event) : bool :=
  match e with
  | EvIssuesCreate _ | EvSleep _ => false
  | _ => true
  end.

(** [s] starts with a white space character ([back]: read backwards). *)
Definition leadingSpace (back : bool) (s : string) : bool :=
  match s with
  | String a s1 =>
    Str.ws1 (Str.code a)
    || match s1 with
       | String b s2 =>
         (if back then Str.ws2 (Str.code b) (Str.code a)
          else Str.ws2 (Str.code a) (Str.code b))
         || match s2 with
            | String c _ =>
              if back then Str.ws3 (Str.code c) (Str.code b) (Str.code a)
              else Str.ws3 (Str.code a) (Str.code b) (Str.code c)
            | EmptyString => false
            end
       | EmptyString => false
       end
  | EmptyString => false
  end.

(** The title an outcome carries. *)
Definition outcomeTitle (result : ImportOutcome) : JsVal :=
  match result with
  | Created t _ _ | DryRun t => JStr t
  | Failed t _ => t
  end.

(** What an iteration of the loop may emit. *)
Definition isRecordEvent (e : Event) : bool :=
  isValidationEvent e || isCreationEvent e || isSleep e.

(** How the outcome [r] of a record [x] gets its title: a failure with the
    title read back from the record, or the trimmed, non-blank title. *)
Definition titleOf (x : JsVal) (r : ImportOutcome) : Prop :=
  (isSuccess r = false
   /\ outcomeTitle r = Js.or (Js.optProp x "title") (JStr "Unknown"))
  \/ exists raw,
      Js.prop x "title" = Some (JStr raw)
      /\ Str.trim raw <> ""
      /\ outcomeTitle r = JStr (Str.trim raw).

(** The title of the record cannot be converted to a string. *)
Definition unprintableTitle (x : JsVal) : Prop :=
  Js.toStr (Js.optProp x "title") = None.

(** [c] does not occur in [s]. *)
Fixpoint avoids (c : ascii) (s : string) : bool :=
  match s with
  | EmptyString => true
  | String a r => negb (Ascii.eqb a c) && avoids c r
  end.

(* ===================================================================== *)
(** ** Unfolding computations *)
(* ===================================================================== *)

Ltac unfold_monad :=
  unfold toStringM, core_info, core_warning, core_error, core_debug,
    core_setOutput, core_setFailed in *;
  unfold mbind, M_bind, mret, M_ret, bind, ret, tryCatch, throw, emit, request in *.

Ltac normalize_events :=
  repeat first [rewrite <- app_assoc | rewrite app_nil_r | progress (cbn [app])].

Section MonadLaws.
Context {St : Type}.

Lemma bind_ok {A B} (m : M St A) (k : A -> M St B) s a s1 ev1 :
  m s = (Ok a, s1, ev1) ->
  (m ≫= k) s = (let '(r, s2, ev2) := k a s1 in (r, s2, ev1 ++ ev2)).
Proof. intros H. unfold_monad. now rewrite H. Qed.

Lemma bind_throw {A B} (m : M St A) (k : A -> M St B) s t s1 ev1 :
  m s = (Throw t, s1, ev1) -> (m ≫= k) s = (Throw t, s1, ev1).
Proof. intros H. unfold_monad. now rewrite H. Qed.

Lemma tryCatch_ok {A} (m : M St A) h s a s1 ev1 :
  m s = (Ok a, s1, ev1) -> tryCatch m h s = (Ok a, s1, ev1).
Proof. intros H. unfold tryCatch. now rewrite H. Qed.

Lemma tryCatch_throw {A} (m : M St A) h s t s1 ev1 :
  m s = (Throw t, s1, ev1) ->
  tryCatch m h s = (let '(r, s2, ev2) := h t s1 in (r, s2, ev1 ++ ev2)).
Proof. intros H. unfold tryCatch. now rewrite H. Qed.

End MonadLaws.

(* ===================================================================== *)
(** ** Creating an issue *)
(* ===================================================================== *)

Section CreateIssue.
Context {St : Type}.
Implicit Types (octokit : Octokit St) (context : Context) (issue : NormalizedIssue).

(** C8. In dry-run mode [createIssue] sends no request and leaves the remote
    service as it was: whatever the client and the state, it returns
    [DryRun] with the title of the issue, and all it emits is four
    informational log lines. *)
Theorem createIssue_dry_run octokit context issue (s : St) :
  exists lines,
    createIssue octokit context issue true s
      = (Ok (DryRun (title issue)), s, map EvInfo lines)
    /\ length lines = 4%nat
    /\ filter (fun e => Is_true (isRemoteCall e)) (map EvInfo lines) = [].
Proof.
  eexists [_; _; _; _]. split; [reflexivity | split; reflexivity].
Qed.

(** C9. Outside dry-run mode [createIssue] sends exactly one request, and
    its payload always carries the title and the body, carries the labels
    exactly when there is at least one label, the assignees exactly when
    there is at least one assignee, and a milestone only when the issue has
    one (a truthy one); an empty list is never sent. *)
Theorem createIssue_payload octokit context issue (s : St) :
  exists p r s' log,
    createIssue octokit context issue false s = (r, s', EvIssuesCreate p :: log)
    /\ filter (fun e => Is_true (isRemoteCall e)) log = []
    /\ p_title p = title issue
    /\ p_body p = body issue
    /\ p_labels p = (if labels issue is [] then None else Some (labels issue))
    /\ p_assignees p = (if assignees issue is [] then None else Some (assignees issue))
    /\ p_labels p <> Some [] /\ p_assignees p <> Some []
    /\ (forall n, p_milestone p = Some n -> milestone issue = Some n)
    /\ (forall n, milestone issue = Some n -> Num.falsy n = false ->
                  p_milestone p = Some n).
Proof.
  exists (buildPayload context issue).
  unfold createIssue. unfold_monad.
  destruct (issuesCreate octokit (buildPayload context issue) s) as [[resp|e] s1] eqn:E.
  - do 3 eexists. split; [reflexivity|]. split; [reflexivity|].
    unfold buildPayload; simpl.
    destruct (labels issue), (assignees issue), (milestone issue) as [n|];
      simpl; repeat split; try congruence;
      try (destruct (Num.falsy n) eqn:F; congruence).
  - destruct (documentationUrl (Rejected e)) eqn:D.
    all: do 3 eexists; (split; [reflexivity|]); (split; [reflexivity|]).
    all: unfold buildPayload; simpl.
    all: destruct (labels issue), (assignees issue), (milestone issue) as [n|];
      simpl; repeat split; try congruence;
      try (destruct (Num.falsy n) eqn:F; congruence).
Qed.


End CreateIssue.

(* ===================================================================== *)
(** ** Labels and assignees *)
(* ===================================================================== *)

Section Normalizers.

Lemma split_replaceSemicolons s :
  Str.split "," (Str.replaceSemicolons s) = Str.splitOn isSeparator s.
Proof.
  unfold Str.split. induction s as [|c r IH]; [reflexivity|].
  cbn [Str.splitOn Str.replaceSemicolons]. rewrite IH.
  assert (Hsep : isSeparator c = Ascii.eqb c "," || Ascii.eqb c ";") by reflexivity.
  destruct (Ascii.eqb_spec c ";") as [->|Hsemi]; [reflexivity|].
  rewrite Hsep, orb_false_r, (Ascii.eqb_sym "," c).
  reflexivity.
Qed.

Lemma replaceSemicolons_swap s :
  Str.replaceSemicolons (swapSeparators s) = Str.replaceSemicolons s.
Proof.
  induction s as [|c r IH]; [reflexivity|].
  simpl. rewrite IH. f_equal.
  destruct (Ascii.eqb_spec c ",") as [->|Hc]; [reflexivity|].
  destruct (Ascii.eqb_spec c ";") as [->|Hs]; [reflexivity|].
  now destruct (Ascii.eqb_spec c ";").
Qed.

Lemma nonEmpty_swap s : Str.nonEmpty (swapSeparators s) = Str.nonEmpty s.
Proof. now destruct s. Qed.

(** C5. On a string, [parseLabels] cuts at every comma and at every
    semicolon alike, trims each piece and drops the pieces left empty; so
    exchanging commas and semicolons in the input does not change the
    result, and ["a,b;c"] and ["a;b,c"] both give [a], [b], [c].
    [undefined], [null], the empty string, the empty array, and every
    value that is neither a string nor an array give the empty list.
    [parseAssignees] is the same function. *)
Theorem parseLabels_separators :
  (forall s,
      parseLabels (JStr s)
      = filter (fun piece => piece <> "") (map Str.trim (Str.splitOn isSeparator s)))
  /\ (forall s, parseLabels (JStr (swapSeparators s)) = parseLabels (JStr s))
  /\ parseLabels (JStr "a,b;c") = ["a"; "b"; "c"]
  /\ parseLabels (JStr "a;b,c") = ["a"; "b"; "c"]
  /\ parseLabels JUndefined = [] /\ parseLabels JNull = []
  /\ parseLabels (JStr "") = [] /\ parseLabels (JArr []) = []
  /\ (forall b, parseLabels (JBool b) = [])
  /\ (forall n, parseLabels (JNum n) = [])
  /\ (forall fields, parseLabels (JObj fields) = [])
  /\ (forall v, parseAssignees v = parseLabels v).
Proof.
  split; [|split].
  - intros s. unfold parseLabels. rewrite split_replaceSemicolons.
    destruct s as [|c r]; [reflexivity|]. cbn [Js.truthy Str.nonEmpty negb].
    apply list_filter_iff. intros [|? ?]; simpl; split; try easy.
  - intros s. unfold parseLabels. cbn [Js.truthy].
    now rewrite nonEmpty_swap, replaceSemicolons_swap.
  - repeat split; try reflexivity.
    + intros b. unfold parseLabels. now destruct b.
    + intros n. unfold parseLabels. now destruct (negb _).
Qed.

End Normalizers.

(* ===================================================================== *)
(** ** Assignees *)
(* ===================================================================== *)

Section Assignees.
Context {St : Type}.
Implicit Types (octokit : Octokit St) (context : Context).

Lemma checkAssignee_step octokit context valid u (s : St) :
  match checkCollaborator octokit (owner context) (repo context) u s with
  | (Resolved _, s1) =>
    exists line,
      checkAssignee octokit context valid u s
      = (Ok (valid ++ [u]), s1,
         [EvCheckCollaborator (owner context) (repo context) u; EvDebug line])
  | (Failure _, s1) =>
    exists line,
      checkAssignee octokit context valid u s
      = (Ok valid, s1,
         [EvCheckCollaborator (owner context) (repo context) u; EvWarning line])
  end.
Proof.
  unfold checkAssignee. unfold_monad.
  destruct (checkCollaborator octokit (owner context) (repo context) u s)
    as [[[]|e] s1]; [now eexists|].
  destruct (statusIs (Rejected e) 404); now eexists.
Qed.

Lemma checkAssignees_confirmed octokit context candidates :
  forall valid (s : St),
  exists s' log,
    checkAssignees octokit context valid candidates s
      = (Ok (valid ++ confirmed octokit context candidates s), s', log)
    /\ filter (fun e => Is_true (isRemoteCall e)) log
       = map (EvCheckCollaborator (owner context) (repo context)) candidates
    /\ (length (filter (fun e => Is_true (isWarning e)) log)
        + length (confirmed octokit context candidates s) = length candidates)%nat.
Proof.
  induction candidates as [|u rest IH]; intros valid s.
  - exists s, []. simpl. now rewrite app_nil_r.
  - cbn [checkAssignees confirmed].
    pose proof (checkAssignee_step octokit context valid u s) as Hstep.
    destruct (checkCollaborator octokit (owner context) (repo context) u s)
      as [[[]|e] s1]; destruct Hstep as [line Hstep];
      rewrite (bind_ok _ _ _ _ _ _ Hstep).
    + destruct (IH (valid ++ [u]) s1) as (s' & log & -> & Hcalls & Hwarn).
      do 2 eexists. split; [now rewrite <- app_assoc|].
      cbn [app map length]. split.
      * rewrite filter_cons_True, filter_cons_False by (simpl; tauto).
        now rewrite Hcalls.
      * rewrite filter_cons_False by (simpl; tauto).
        try rewrite filter_cons_True by (simpl; tauto).
        try rewrite filter_cons_False by (simpl; tauto).
        cbn [length]; lia.
    + destruct (IH valid s1) as (s' & log & -> & Hcalls & Hwarn).
      do 2 eexists. split; [reflexivity|].
      cbn [app map length]. split.
      * rewrite filter_cons_True, filter_cons_False by (simpl; tauto).
        now rewrite Hcalls.
      * rewrite filter_cons_False by (simpl; tauto).
        try rewrite filter_cons_True by (simpl; tauto).
        try rewrite filter_cons_False by (simpl; tauto).
        cbn [length]; lia.
Qed.

Lemma validateAssignees_ok octokit context assignees (s : St) :
  exists result s' log,
    validateAssignees octokit context assignees s = (Ok result, s', log).
Proof.
  destruct assignees as [[|u rest]|]; try (now exists [], s, []).
  destruct (checkAssignees_confirmed octokit context (u :: rest) [] s)
    as (s' & log & H & _).
  unfold validateAssignees. rewrite H. eauto.
Qed.

Lemma confirmed_sublist octokit context candidates :
  forall s : St, sublist (confirmed octokit context candidates s) candidates.
Proof.
  induction candidates as [|u rest IH]; intros s; simpl; [constructor|].
  destruct (checkCollaborator _ _ _ _ _) as [[|] s1].
  - apply sublist_skip, IH.
  - apply sublist_cons, IH.
Qed.

(** C6. [validateAssignees] never throws and returns the candidates the
    service confirms, in their original order: it sends one collaborator
    check per candidate, in order, and every candidate whose check is
    rejected (404 or any other error) is dropped with one warning.  The
    result is a sub-sequence of the candidates; when the answer of the
    service depends on the user name only, it is the candidates filtered by
    that answer.  For an absent or empty sequence it returns the empty
    list without any request or event. *)
Theorem validateAssignees_confirmed octokit context candidates (s : St) :
  (exists s' log,
      validateAssignees octokit context (Some candidates) s
        = (Ok (confirmed octokit context candidates s), s', log)
      /\ filter (fun e => Is_true (isRemoteCall e)) log
         = map (EvCheckCollaborator (owner context) (repo context)) candidates
      /\ (length (filter (fun e => Is_true (isWarning e)) log)
          + length (confirmed octokit context candidates s)
          = length candidates)%nat)
  /\ sublist (confirmed octokit context candidates s) candidates
  /\ validateAssignees octokit context None s = (Ok [], s, [])
  /\ validateAssignees octokit context (Some []) s = (Ok [], s, [])
  /\ (forall collab : string -> bool,
        (forall u st,
            (if fst (checkCollaborator octokit (owner context) (repo context) u st)
                is Resolved _ then true else false) = collab u) ->
        confirmed octokit context candidates s
        = filter (fun u => Is_true (collab u)) candidates).
Proof.
  split; [|split; [apply confirmed_sublist|repeat split]].
  - destruct candidates as [|u rest]; [now exists s, []|].
    apply (checkAssignees_confirmed octokit context (u :: rest) [] s).
  - intros collab Hcollab. revert s.
    induction candidates as [|u rest IH]; intros s; [reflexivity|].
    cbn [confirmed]. specialize (Hcollab u s).
    destruct (checkCollaborator _ _ _ _ _) as [[|] s1]; simpl in Hcollab.
    + rewrite filter_cons_True by (now rewrite <- Hcollab). now rewrite IH.
    + rewrite filter_cons_False by (now rewrite <- Hcollab). apply IH.
Qed.

End Assignees.

(* ===================================================================== *)
(** ** Decimal numerals *)
(* ===================================================================== *)

Section Numerals.

Lemma code_chr z : 0 <= z < 256 -> Str.code (Str.chr z) = z.
Proof.
  intros H. unfold Str.code, Str.chr.
  rewrite N_ascii_embedding by lia. lia.
Qed.

Lemma digit_char d :
  0 <= d < 10 ->
  Str.isDigit (Str.chr (48 + d)) = true /\ Str.code (Str.chr (48 + d)) - 48 = d.
Proof.
  intros H. unfold Str.isDigit. rewrite code_chr by lia.
  split; [|lia]. apply andb_true_intro. split; apply Z.leb_le; lia.
Qed.

Lemma parseDigits_digitsAux fuel :
  forall n rest,
    0 <= n < 10 ^ Z.of_nat fuel ->
    Num.parseDigits (Num.digitsAux fuel n rest) 0 = Num.parseDigits rest n.
Proof.
  induction fuel as [|f IH]; intros n rest Hn.
  - simpl in *. now replace n with 0 by lia.
  - cbn [Num.digitsAux]. destruct (Z.ltb_spec n 10) as [Hlt|Hge].
    + destruct (digit_char n) as [Hd Hv]; [lia|].
      cbn [Num.parseDigits]. rewrite Hd, Hv. f_equal.
    + rewrite IH.
      * destruct (digit_char (n mod 10)) as [Hd Hv]; [apply Z.mod_pos_bound; lia|].
        cbn [Num.parseDigits]. rewrite Hd, Hv. f_equal.
        pose proof (Z.div_mod n 10). lia.
      * rewrite Nat2Z.inj_succ, Z.pow_succ_r in Hn by lia.
        split; [apply Z.div_pos; lia|].
        apply Z.div_lt_upper_bound; lia.
Qed.

Lemma digits_fuel n :
  0 <= n -> n < 10 ^ Z.of_nat (S (Z.to_nat (Z.log2 n))).
Proof.
  intros Hn. rewrite Nat2Z.inj_succ, Z2Nat.id by apply Z.log2_nonneg.
  destruct (Z.eq_dec n 0) as [->|Hnz]; [reflexivity|].
  pose proof (Z.log2_spec n ltac:(lia)) as [_ Hup].
  eapply Z.lt_le_trans; [exact Hup|].
  apply Z.pow_le_mono_l. lia.
Qed.

Lemma parseDigits_digits n : 0 <= n -> Num.parseDigits (Num.digits n) 0 = n.
Proof.
  intros Hn. unfold Num.digits.
  rewrite parseDigits_digitsAux by (split; [lia | now apply digits_fuel]).
  reflexivity.
Qed.

Lemma digitsAux_head fuel :
  forall n rest, 0 <= n -> startsWithDigit rest ->
                 startsWithDigit (Num.digitsAux fuel n rest).
Proof.
  induction fuel as [|f IH]; intros n rest Hn Hrest; [exact Hrest|].
  cbn [Num.digitsAux]. destruct (Z.ltb_spec n 10).
  - do 2 eexists. split; [reflexivity|]. apply digit_char. lia.
  - apply IH; [apply Z.div_pos; lia|].
    do 2 eexists. split; [reflexivity|]. apply digit_char.
    apply Z.mod_pos_bound. lia.
Qed.

Lemma digits_head n : 0 <= n -> startsWithDigit (Num.digits n).
Proof.
  intros Hn. unfold Num.digits. cbn [Num.digitsAux].
  destruct (Z.ltb_spec n 10).
  - do 2 eexists. split; [reflexivity|]. apply digit_char. lia.
  - apply digitsAux_head; [apply Z.div_pos; lia|].
    do 2 eexists. split; [reflexivity|]. apply digit_char.
    apply Z.mod_pos_bound. lia.
Qed.

(** Neither a digit nor a minus sign starts a white space character. *)
Lemma strip_numeral c r :
  45 <= Str.code c <= 57 -> Str.strip false (String c r) = String c r.
Proof.
  intros Hc. cbn [Str.strip].
  assert (H1 : Str.ws1 (Str.code c) = false) by (unfold Str.ws1; lia).
  assert (H2 : forall b, Str.ws2 (Str.code c) b = false)
    by (intros b; unfold Str.ws2; lia).
  assert (H3 : forall a b, Str.ws3 (Str.code c) a b = false)
    by (intros a b; unfold Str.ws3; lia).
  rewrite H1. destruct r as [|b [|d r]]; [reflexivity| |].
  - now rewrite H2.
  - now rewrite H2, H3.
Qed.

Lemma isDigit_range c : Str.isDigit c = true -> 48 <= Str.code c <= 57.
Proof.
  unfold Str.isDigit. intros [H1 H2]%andb_prop.
  apply Z.leb_le in H1, H2. lia.
Qed.

Lemma digit_not_sign c d :
  Str.isDigit c = true -> Str.isDigit d = false -> Ascii.eqb c d = false.
Proof.
  intros Hc Hd. destruct (Ascii.eqb_spec c d) as [->|]; congruence.
Qed.

Lemma parseInt_digits n :
  0 <= n < 2 ^ 53 -> Num.parseInt (Num.digits n) = Int n.
Proof.
  intros Hn. unfold Num.parseInt.
  destruct (digits_head n) as (c & r & Hs & Hd); [lia|].
  pose proof (parseDigits_digits n ltac:(lia)) as Hp.
  rewrite Hs in *. unfold Str.trimStart.
  rewrite strip_numeral by (apply isDigit_range in Hd; lia).
  rewrite !(digit_not_sign c) by (exact Hd || reflexivity).
  rewrite Hd, Hp. unfold Num.roundDouble.
  destruct (Z.ltb_spec (Z.abs n) (2 ^ 53)); [reflexivity | lia].
Qed.

Lemma parseInt_decimal z :
  Z.abs z < 2 ^ 53 -> Num.parseInt (Num.decimal z) = Int z.
Proof.
  intros Hz. unfold Num.decimal. destruct (Z.ltb_spec z 0) as [Hneg|Hpos].
  - unfold Num.parseInt, Str.trimStart.
    rewrite strip_numeral by (vm_compute; split; discriminate).
    destruct (digits_head (- z)) as (c & r & Hs & Hd); [lia|].
    pose proof (parseDigits_digits (- z) ltac:(lia)) as Hp.
    cbn [Ascii.eqb Bool.eqb]. rewrite Hs in *. rewrite Hd, Hp.
    unfold Num.roundDouble. rewrite Z.opp_involutive.
    destruct (Z.ltb_spec (Z.abs z) (2 ^ 53)); [reflexivity | lia].
  - apply parseInt_digits. lia.
Qed.

Lemma toString_decimal z :
  Z.abs z < 2 ^ 53 -> Num.toString (Int z) = Num.decimal z.
Proof.
  intros Hz. unfold Num.toString, Num.decimal, Num.natToString.
  destruct (Z.ltb_spec z 0).
  - destruct (Z.ltb_spec (- z) (2 ^ 53)); [reflexivity | lia].
  - destruct (Z.ltb_spec z (2 ^ 53)); [reflexivity | lia].
Qed.

Lemma digitsAux_nonEmpty fuel :
  forall n c r, Str.nonEmpty (Num.digitsAux fuel n (String c r)) = true.
Proof.
  induction fuel as [|f IH]; intros n c r; [reflexivity|].
  cbn [Num.digitsAux]. destruct (n <? 10); [reflexivity | apply IH].
Qed.

Lemma decimal_nonEmpty z : Str.nonEmpty (Num.decimal z) = true.
Proof.
  unfold Num.decimal. destruct (z <? 0); [reflexivity|].
  unfold Num.digits. cbn [Num.digitsAux]. destruct (z <? 10); [reflexivity|].
  apply digitsAux_nonEmpty.
Qed.

End Numerals.

(* ===================================================================== *)
(** ** Milestones *)
(* ===================================================================== *)

Section Milestones.
Context {St : Type}.

Lemma resolveMilestone_string str (milestoneMap : gmap string Z) (s : St) :
  str <> "" ->
  resolveMilestone (JStr str) milestoneMap s
  = if negb (Num.isNaN (Num.parseInt str))
       && String.eqb (Num.toString (Num.parseInt str)) str
    then (Ok (Some (Num.parseInt str)), s, [])
    else match milestoneMap !! str with
         | Some number => (Ok (Some (Int number)), s, [])
         | None =>
           (Ok None, s,
            [EvWarning ("Milestone " +:+ Str.quote +:+ str +:+ Str.quote
                        +:+ " not found in repository. "
                        +:+ "Issue will be created without milestone.")])
         end.
Proof.
  intros Hne. unfold resolveMilestone.
  destruct str as [|c r]; [congruence|]. cbn [Js.truthy Str.nonEmpty negb].
  unfold toStringM. cbn [Js.toStr mapGet]. unfold_monad.
  destruct (negb _ && _); [reflexivity|].
  now destruct (milestoneMap !! String c r).
Qed.

(** C2. The order in which [resolveMilestone] decides.  A falsy reference
    ([undefined], [null], [false], [0], [NaN], the empty string) gives no
    milestone and no warning.  A number is returned as it is.  A string
    that is the rendering of the integer it parses to is resolved to that
    integer whatever the map holds; the decimal numeral of every integer
    below 2^53 in absolute value is such a string.  Any other string is
    looked up verbatim in the map: when it is a key, the result is its
    number; when it is not, there is no milestone and exactly one warning
    is emitted.  The remote service is never involved. *)
Theorem resolveMilestone_precedence (milestoneMap : gmap string Z) (s : St) :
  (forall v, Js.truthy v = false ->
             resolveMilestone v milestoneMap s = (Ok None, s, []))
  /\ (forall n, Num.falsy n = false ->
                resolveMilestone (JNum n) milestoneMap s = (Ok (Some n), s, []))
  /\ (forall str, str <> "" ->
                  Num.isNaN (Num.parseInt str) = false ->
                  Num.toString (Num.parseInt str) = str ->
                  resolveMilestone (JStr str) milestoneMap s
                  = (Ok (Some (Num.parseInt str)), s, []))
  /\ (forall z, Z.abs z < 2 ^ 53 ->
                resolveMilestone (JStr (Num.decimal z)) milestoneMap s
                = (Ok (Some (Int z)), s, []))
  /\ (forall str number,
         str <> "" ->
         Num.isNaN (Num.parseInt str) = true
         \/ Num.toString (Num.parseInt str) <> str ->
         milestoneMap !! str = Some number ->
         resolveMilestone (JStr str) milestoneMap s = (Ok (Some (Int number)), s, []))
  /\ (forall str,
         str <> "" ->
         Num.isNaN (Num.parseInt str) = true
         \/ Num.toString (Num.parseInt str) <> str ->
         milestoneMap !! str = None ->
         resolveMilestone (JStr str) milestoneMap s
         = (Ok None, s,
            [EvWarning ("Milestone " +:+ Str.quote +:+ str +:+ Str.quote
                        +:+ " not found in repository. "
                        +:+ "Issue will be created without milestone.")])).
Proof.
  assert (Hnum : forall str,
             Num.isNaN (Num.parseInt str) = true
             \/ Num.toString (Num.parseInt str) <> str ->
             negb (Num.isNaN (Num.parseInt str))
             && String.eqb (Num.toString (Num.parseInt str)) str = false).
  { intros str [->| Hneq]; [reflexivity|].
    apply String.eqb_neq in Hneq. rewrite Hneq. apply andb_false_r. }
  repeat split.
  - intros v Hv. unfold resolveMilestone. now rewrite Hv.
  - intros n Hn. unfold resolveMilestone. cbn [Js.truthy]. now rewrite Hn.
  - intros str Hne Hnan Hstr. rewrite resolveMilestone_string by assumption.
    now rewrite Hnan, Hstr, String.eqb_refl.
  - intros z Hz. rewrite resolveMilestone_string.
    + rewrite parseInt_decimal, toString_decimal by assumption.
      now rewrite String.eqb_refl.
    + intros Heq. pose proof (decimal_nonEmpty z) as Hd. now rewrite Heq in Hd.
  - intros str number Hne Hcond Hget. rewrite resolveMilestone_string by assumption.
    now rewrite Hnum, Hget.
  - intros str Hne Hcond Hget. rewrite resolveMilestone_string by assumption.
    now rewrite Hnum, Hget.
Qed.

End Milestones.

(** C2 as it is worded fails on numerals that are not in canonical form.
    The whole of ["007"] parses as the integer 7, yet the string is not the
    rendering of 7, so it is looked up as a title: with a milestone titled
    [007], number 3, the result is 3; without one there is no milestone. *)
Lemma resolveMilestone_leading_zero :
  parsesEntirelyAs "007" = Some 7
  /\ resolveMilestone (JStr "007") (<["007" := 3]> ∅) 0%nat
     = (Ok (Some (Int 3)), 0%nat, [])
  /\ fst (fst (resolveMilestone (JStr "007") ∅ 0%nat)) = Ok None
  /\ ~ (forall str z (milestoneMap : gmap string Z),
           parsesEntirelyAs str = Some z ->
           resolveMilestone (JStr str) milestoneMap 0%nat
           = (Ok (Some (Int z)), 0%nat, [])).
Proof.
  split; [reflexivity|]. split; [reflexivity|]. split; [reflexivity|].
  intros H. specialize (H "007" 7 (<["007" := 3]> ∅) eq_refl).
  vm_compute in H. discriminate H.
Qed.

(** The examples of the specification, on a map that also holds a
    milestone titled [5]. *)
Lemma resolveMilestone_examples :
  let milestoneMap : gmap string Z := <["v1" := 10]> (<["5" := 77]> ∅) in
  resolveMilestone (JStr "v1") milestoneMap 0%nat = (Ok (Some (Int 10)), 0%nat, [])
  /\ resolveMilestone (JStr "5") milestoneMap 0%nat = (Ok (Some (Int 5)), 0%nat, [])
  /\ resolveMilestone (JStr "v2") milestoneMap 0%nat
     = (Ok None, 0%nat,
        [EvWarning ("Milestone " +:+ Str.quote +:+ "v2" +:+ Str.quote
                    +:+ " not found in repository. "
                    +:+ "Issue will be created without milestone.")])
  /\ resolveMilestone JNull milestoneMap 0%nat = (Ok None, 0%nat, [])
  /\ resolveMilestone (JNum (Int 3)) milestoneMap 0%nat = (Ok (Some (Int 3)), 0%nat, []).
Proof.
  intros milestoneMap.
  destruct (resolveMilestone_precedence milestoneMap 0%nat)
    as (Hfalsy & Hnum & _ & Hdec & Hfound & Hmissing).
  split; [|split; [|split; [|split]]].
  - apply Hfound; [discriminate | left; reflexivity | reflexivity].
  - apply (Hdec 5). reflexivity.
  - apply Hmissing; [discriminate | left; reflexivity | reflexivity].
  - apply Hfalsy. reflexivity.
  - apply Hnum. reflexivity.
Defined.

(* ===================================================================== *)
(** ** Validating a record *)
(* ===================================================================== *)

Section Validation.
Context {St : Type}.
Implicit Types (octokit : Octokit St) (context : Context).

Lemma createIssue_ok octokit context issue dryRun (s : St) :
  exists outcome s' log,
    createIssue octokit context issue dryRun s = (Ok outcome, s', log).
Proof.
  unfold createIssue. destruct dryRun; [now do 3 eexists|].
  unfold_monad.
  destruct (issuesCreate octokit (buildPayload context issue) s) as [[resp|e] s1];
    [now do 3 eexists|].
  destruct (documentationUrl (Rejected e)); now do 3 eexists.
Qed.


Lemma validTitle_invalid t :
  t = JUndefined \/ (forall str, t <> JStr str)
  \/ (exists str, t = JStr str /\ Str.trim str = "") ->
  validTitle t = None.
Proof.
  unfold validTitle. intros [->|[Hns|(str & -> & Hblank)]]; [reflexivity| |].
  - destruct (negb (Js.truthy t)); [reflexivity|].
    destruct t; try reflexivity. now destruct (Hns s).
  - destruct (negb _); [reflexivity|]. now rewrite Hblank.
Qed.

Lemma processIssue_invalid octokit context count milestoneMap dryRun st i issue
    (s : St) t s1 ev1 :
  validateIssue octokit context issue i milestoneMap s = (Throw t, s1, ev1) ->
  processIssue octokit context count milestoneMap dryRun st i issue s
  = (Ok (record st (Failed (Js.or (Js.optProp issue "title") (JStr "Unknown"))
                           (thrownMessage t))),
     s1,
     ev1 ++ [EvError ("❌ Failed to process issue at index " +:+ showNat i +:+ ": "
                      +:+ thrownMessage t)]).
Proof.
  intros Ev. unfold processIssue.
  erewrite tryCatch_throw by (erewrite bind_throw by exact Ev; reflexivity).
  reflexivity.
Qed.

Lemma processIssue_ok octokit context count milestoneMap dryRun st i issue (s : St) :
  exists result s' log,
    processIssue octokit context count milestoneMap dryRun st i issue s
    = (Ok (record st result), s', log).
Proof.
  destruct (validateIssue octokit context issue i milestoneMap s)
    as [[[v|t] s1] ev1] eqn:Ev.
  - unfold processIssue.
    destruct (createIssue_ok octokit context v dryRun s1) as (r & s2 & ev2 & Ec).
    exists r.
    destruct (negb dryRun && (Z.of_nat i <? Z.of_nat count - 1)) eqn:Epause,
      (isSuccess r) eqn:Er.
    all: do 2 eexists; unfold_monad; cbv beta; rewrite Ev; cbv beta iota.
    all: rewrite Ec; cbv beta iota; rewrite ?Er; unfold record; rewrite ?Er;
      reflexivity.
  - rewrite (processIssue_invalid _ _ _ _ _ _ _ _ _ _ _ _ Ev). now do 3 eexists.
Qed.


(** C4. A record whose title is missing, is not a string, or is blank once
    trimmed, is rejected by [validateIssue] with the error that names its
    index, whatever its other fields; nothing is sent to the remote service
    and nothing is logged before the rejection.  In [run] such a record
    becomes a [Failed] outcome and one error line, still without any
    request. *)
Theorem validateIssue_rejects_invalid_title octokit context issue index milestoneMap
    (s : St) t :
  Js.prop issue "title" = Some t ->
  t = JUndefined \/ (forall str, t <> JStr str)
  \/ (exists str, t = JStr str /\ Str.trim str = "") ->
  validateIssue octokit context issue index milestoneMap s
  = (Throw (JsError ("Issue at index " +:+ showNat index
                     +:+ " is missing a valid title")), s, [])
  /\ forall count dryRun st,
      exists line,
        processIssue octokit context count milestoneMap dryRun st index issue s
        = (Ok {| results :=
                   results st
                   ++ [Failed (Js.or t (JStr "Unknown"))
                              ("Issue at index " +:+ showNat index
                               +:+ " is missing a valid title")];
                 successCount := successCount st;
                 failureCount := S (failureCount st) |},
           s, [EvError line]).
Proof.
  intros Hprop Hbad. apply validTitle_invalid in Hbad.
  assert (Hv : validateIssue octokit context issue index milestoneMap s
               = (Throw (missingTitle index), s, [])).
  { unfold validateIssue. now rewrite Hprop, Hbad. }
  split; [exact Hv|].
  intros count dryRun st. eexists.
  rewrite (processIssue_invalid _ _ _ _ _ _ _ _ _ _ _ _ Hv).
  unfold Js.optProp. rewrite Hprop. reflexivity.
Qed.

End Validation.

(** A record without a title, whatever else it holds, at index 1. *)
Lemma validateIssue_missing_title_example :
  validateIssue mockOctokit mockContext
    (JObj [("body", JStr "Test body"); ("assignees", JStr "alice")]) 1 ∅ 0%nat
  = (Throw (JsError "Issue at index 1 is missing a valid title"), 0%nat, []).
Proof.
  apply (validateIssue_rejects_invalid_title mockOctokit mockContext
           (JObj [("body", JStr "Test body"); ("assignees", JStr "alice")])
           1 ∅ 0%nat JUndefined).
  - reflexivity.
  - left. reflexivity.
Defined.

(* ===================================================================== *)
(** ** The loop of [run] *)
(* ===================================================================== *)

Section Loop.
Context {St : Type}.
Implicit Types (octokit : Octokit St) (context : Context).

Lemma results_foldl_record rs :
  forall st, results (foldl record st rs) = results st ++ rs.
Proof.
  induction rs as [|r rs IH]; intros st; simpl; [now rewrite app_nil_r|].
  rewrite IH. simpl. now rewrite <- app_assoc.
Qed.

Lemma counts_foldl_record rs :
  forall st,
    successCount (foldl record st rs)
    = (successCount st + length (filter (fun r => isSuccess r = true) rs))%nat
    /\ failureCount (foldl record st rs)
       = (failureCount st + length (filter (fun r => isSuccess r = false) rs))%nat.
Proof.
  induction rs as [|r rs IH]; intros st; simpl; [lia|].
  destruct (IH (record st r)) as [-> ->]. unfold record; simpl.
  destruct (isSuccess r) eqn:Er.
  - rewrite filter_cons_True, filter_cons_False by congruence. simpl. lia.
  - rewrite filter_cons_False, filter_cons_True by congruence. simpl. lia.
Qed.

Lemma runLoop_prefix octokit context count milestoneMap dryRun pre :
  forall st i (s : St),
  exists rs s1 ev1,
    runLoop octokit context count milestoneMap dryRun st i pre s
    = (Ok (foldl record st rs), s1, ev1)
    /\ length rs = length pre
    /\ forall rest,
        runLoop octokit context count milestoneMap dryRun st i (pre ++ rest) s
        = (let '(r, s2, ev2) :=
             runLoop octokit context count milestoneMap dryRun
                     (foldl record st rs) (i + length pre) rest s1 in
           (r, s2, ev1 ++ ev2)).
Proof.
  induction pre as [|x pre IH]; intros st i s.
  - exists [], s, []. repeat split. intros rest. cbn [app length foldl].
    rewrite Nat.add_0_r. now destruct (runLoop _ _ _ _ _ _ _ _ _) as [[r s2] ev2].
  - destruct (processIssue_ok octokit context count milestoneMap dryRun st i x s)
      as (r & s' & log & Hp).
    destruct (IH (record st r) (S i) s') as (rs & s1 & ev1 & Hl & Hlen & Happ).
    exists (r :: rs), s1, (log ++ ev1). split; [|split].
    + cbn [runLoop foldl]. rewrite (bind_ok _ _ _ _ _ _ Hp). now rewrite Hl.
    + simpl. lia.
    + intros rest. cbn [app runLoop foldl length].
      rewrite (bind_ok _ _ _ _ _ _ Hp), Happ.
      replace (i + S (length pre))%nat with (S i + length pre)%nat by lia.
      destruct (runLoop octokit context count milestoneMap dryRun
                  (foldl record (record st r) rs) (S i + length pre) rest s1)
        as [[r' s2] ev2].
      now rewrite app_assoc.
Qed.


End Loop.

(* ===================================================================== *)
(** ** The summary of [run] *)
(* ===================================================================== *)

Section Run.
Context {St : Type}.
Implicit Types (octokit : Octokit St) (context : Context).

Lemma getMilestoneMapping_ok octokit context (s : St) :
  exists milestoneMap s' log,
    getMilestoneMapping octokit context s = (Ok milestoneMap, s', log).
Proof.
  unfold getMilestoneMapping. unfold_monad.
  destruct (listMilestones octokit (owner context) (repo context) "all" s)
    as [[data|e] s1]; now do 3 eexists.
Qed.

(** Logging the results does not reach the remote service. *)
Lemma logResults_state rs :
  forall s : St, exists r log, logResults rs s = (r, s, log).
Proof.
  induction rs as [|x rs IH]; intros s; [now do 2 eexists|].
  destruct (IH s) as (r & log & Hl).
  cbn [logResults]. unfold logResult.
  destruct x as [t n u|t|t e]; unfold_monad; cbn [Js.toStr]; cbv beta iota.
  - rewrite Hl. now do 2 eexists.
  - rewrite Hl. now do 2 eexists.
  - destruct (Js.toStr t); [|now do 2 eexists].
    cbv beta iota. destruct (Str.nonEmpty e); cbv beta iota; rewrite Hl;
      now do 2 eexists.
Qed.

Lemma run_events octokit context issues dryRun (s : St) milestoneMap s0 ev0 st s1 ev1 :
  issues <> [] ->
  getMilestoneMapping octokit context s = (Ok milestoneMap, s0, ev0) ->
  runLoop octokit context (length issues) milestoneMap dryRun
          {| results := []; successCount := 0; failureCount := 0 |} 0 issues s0
  = (Ok st, s1, ev1) ->
  results st <> [] ->
  exists detail,
    logResults (results st) s1 = (fst detail, s1, snd detail)
    /\ run octokit context issues dryRun s
       = (Ok tt, s1,
          EvInfo ("📊 Found " +:+ showNat (length issues) +:+ " issues to import")
          :: ev0 ++ ev1 ++ closing st dryRun detail).
Proof.
  intros Hne Hm Hl Hres.
  destruct (logResults_state (results st) s1) as (r & log & Hlog).
  exists (r, log). split; [exact Hlog|].
  assert (Hlen : Nat.eqb (length issues) 0 = false)
    by (destruct issues; [congruence | reflexivity]).
  unfold run, closing. unfold_monad. cbv beta. rewrite Hlen.
  cbv beta iota. rewrite Hm. cbv beta iota. rewrite Hl. cbv beta iota.
  destruct (results st) as [|r0 rs0] eqn:Er; [congruence|].
  assert (Hpos : (0 <? Z.of_nat (length (r0 :: rs0))) = true)
    by (apply Z.ltb_lt; cbn [length]; lia).
  rewrite Hpos. cbv beta iota. rewrite Hlog. cbv beta iota zeta.
  destruct r as [[]|t]; cbn [fst snd].
  - destruct ((0 <? Z.of_nat (failureCount st)) && negb dryRun);
      cbv beta iota; normalize_events; reflexivity.
  - normalize_events; reflexivity.
Qed.

Lemma counts_sum rs :
  forall st,
    (successCount (foldl record st rs) + failureCount (foldl record st rs)
     = successCount st + failureCount st + length rs)%nat.
Proof.
  induction rs as [|r rs IH]; intros st; simpl; [lia|].
  rewrite IH. unfold record; simpl. destruct (isSuccess r); lia.
Qed.

(** C10. For a non-empty sequence of records [run] ends normally; its loop
    leaves exactly one outcome per record; the number of successes is the
    number of [Created] and [DryRun] outcomes, the number of failures the
    number of [Failed] outcomes, and together they are the number of
    records; these two numbers are the ones [run] reports in the outputs
    [issues-created] and [issues-failed] and in the summary. *)
Theorem run_accounts_for_every_record octokit context issues dryRun (s : St) :
  issues <> [] ->
  exists milestoneMap s0 ev0 st s1 ev1 tail,
    getMilestoneMapping octokit context s = (Ok milestoneMap, s0, ev0)
    /\ runLoop octokit context (length issues) milestoneMap dryRun
               {| results := []; successCount := 0; failureCount := 0 |} 0 issues s0
       = (Ok st, s1, ev1)
    /\ length (results st) = length issues
    /\ (successCount st + failureCount st = length issues)%nat
    /\ successCount st = length (filter (fun r => isSuccess r = true) (results st))
    /\ failureCount st = length (filter (fun r => isSuccess r = false) (results st))
    /\ run octokit context issues dryRun s
       = (Ok tt, s1,
          EvInfo ("📊 Found " +:+ showNat (length issues) +:+ " issues to import")
          :: ev0 ++ ev1
          ++ [EvInfo ("📈 Import completed: " +:+ showNat (successCount st)
                      +:+ " successful, " +:+ showNat (failureCount st) +:+ " failed");
              EvSetOutput "issues-created" (showNat (successCount st));
              EvSetOutput "issues-failed" (showNat (failureCount st));
              EvSetOutput "summary"
                          ("Import completed: " +:+ showNat (successCount st)
                           +:+ " successful, " +:+ showNat (failureCount st)
                           +:+ " failed")]
          ++ tail).
Proof.
  intros Hne.
  destruct (getMilestoneMapping_ok octokit context s) as (m & s0 & ev0 & Hm).
  set (st0 := {| results := []; successCount := 0; failureCount := 0 |}).
  destruct (runLoop_prefix octokit context (length issues) m dryRun issues st0 0%nat s0)
    as (rs & s1 & ev1 & Hl & Hlen & _).
  pose proof (results_foldl_record rs st0) as Hres. cbn [st0 results app] in Hres.
  pose proof (counts_foldl_record rs st0) as [Hsucc Hfail].
  pose proof (counts_sum rs st0) as Hsum. cbn [st0 successCount failureCount] in *.
  assert (Hnonempty : results (foldl record st0 rs) <> []).
  { rewrite Hres. destruct rs, issues; simpl in *; congruence. }
  destruct (run_events octokit context issues dryRun s m s0 ev0 _ s1 ev1
              Hne Hm Hl Hnonempty) as (detail & _ & Hrun).
  exists m, s0, ev0, (foldl record st0 rs), s1, ev1, (skipn 4 (closing (foldl record st0 rs) dryRun detail)).
  split; [exact Hm|]. split; [exact Hl|].
  rewrite Hres. repeat split; try lia.
  rewrite Hrun. reflexivity.
Qed.

(** C1, where the code departs from it.  In dry-run mode, on the single
    record [{"title": {"toString": 1}}], [run] counts one failure, reports
    it in the outputs, and then reports the whole run as failed: the title
    kept for the failed record cannot be turned into a string, the line
    that logs the result throws, and the outer handler calls [setFailed]. *)
Theorem run_dry_run_reports_failure octokit context (s : St) :
  exists s' log,
    run octokit context
        [JObj [("title", JObj [("toString", JNum (Int 1))])]] true s
    = (Ok tt, s', log)
    /\ In (EvSetOutput "issues-created" "0") log
    /\ In (EvSetOutput "issues-failed" "1") log
    /\ In (EvSetOutput "summary" "Import completed: 0 successful, 1 failed") log
    /\ In (EvSetFailed "Action failed: Cannot convert object to primitive value") log.
Proof.
  set (issue := JObj [("title", JObj [("toString", JNum (Int 1))])]).
  destruct (getMilestoneMapping_ok octokit context s) as (m & s0 & ev0 & Hm).
  set (st0 := {| results := []; successCount := 0; failureCount := 0 |}).
  assert (Hv : validateIssue octokit context issue 0 m s0
               = (Throw (missingTitle 0), s0, [])) by reflexivity.
  pose proof (processIssue_invalid octokit context 1 m true st0 0 issue s0 _ _ _ Hv)
    as Hp.
  assert (Hl : runLoop octokit context (length [issue]) m true st0 0 [issue] s0
               = (Ok (record st0 (Failed (JObj [("toString", JNum (Int 1))])
                                         (thrownMessage (missingTitle 0)))),
                  s0,
                  [EvError ("❌ Failed to process issue at index " +:+ showNat 0
                            +:+ ": " +:+ thrownMessage (missingTitle 0))])).
  { cbn [runLoop length]. rewrite (bind_ok _ _ _ _ _ _ Hp). reflexivity. }
  destruct (run_events octokit context [issue] true s m s0 ev0 _ s0 _
              ltac:(discriminate) Hm Hl ltac:(discriminate))
    as ([r log] & Hlog & Hrun).
  injection Hlog as <- <-.
  do 2 eexists. split; [exact Hrun|].
  repeat split; apply in_cons, in_or_app; right; apply in_or_app; right.
  - right. left. reflexivity.
  - right. right. left. reflexivity.
  - right. right. right. left. reflexivity.
  - do 5 right. left. reflexivity.
Qed.

End Run.

(* ===================================================================== *)
(** ** Where the run is reported as failed *)
(* ===================================================================== *)

Section Status.
Context {St : Type}.
Implicit Types (octokit : Octokit St) (context : Context).

Ltac split_match :=
  match goal with
  | H : context [match ?x with _ => _ end] |- _ => destruct x eqn:?
  end.

Lemma quiet_nil : quiet [].
Proof. constructor. Qed.

Lemma quiet_cons e log : isSetFailed e = false -> quiet log -> quiet (e :: log).
Proof. now constructor. Qed.

Lemma quiet_app a b : quiet a -> quiet b -> quiet (a ++ b).
Proof. apply Forall_app_2. Qed.

Create HintDb quiet.
#[local] Hint Resolve quiet_nil quiet_cons quiet_app : quiet.
#[local] Hint Extern 1 (isSetFailed _ = false) => reflexivity : quiet.

Ltac quiet_events := eauto 12 with quiet.

Lemma checkAssignees_quiet octokit context candidates :
  forall valid (s : St) r s' log,
    checkAssignees octokit context valid candidates s = (r, s', log) -> quiet log.
Proof.
  induction candidates as [|u rest IH]; intros valid s r s' log H.
  - injection H as _ _ <-. quiet_events.
  - cbn [checkAssignees] in H.
    pose proof (checkAssignee_step octokit context valid u s) as Hstep.
    destruct (checkCollaborator octokit (owner context) (repo context) u s)
      as [[[]|e] s1]; destruct Hstep as [line Hstep];
      rewrite (bind_ok _ _ _ _ _ _ Hstep) in H;
      split_match; split_match; injection H as _ _ <-;
      apply IH in Heqp; quiet_events.
Qed.
#[local] Hint Resolve checkAssignees_quiet : quiet.

Lemma validateAssignees_quiet octokit context assignees (s : St) r s' log :
  validateAssignees octokit context assignees s = (r, s', log) -> quiet log.
Proof.
  destruct assignees as [[|u rest]|]; cbn [validateAssignees].
  - intros [= _ _ <-]. quiet_events.
  - apply checkAssignees_quiet.
  - intros [= _ _ <-]. quiet_events.
Qed.
#[local] Hint Resolve validateAssignees_quiet : quiet.

Lemma resolveMilestone_quiet v (milestoneMap : gmap string Z) (s : St) r s' log :
  resolveMilestone v milestoneMap s = (r, s', log) -> quiet log.
Proof.
  unfold resolveMilestone. unfold_monad. intros H.
  repeat split_match; simplify_eq; quiet_events.
Qed.
#[local] Hint Resolve resolveMilestone_quiet : quiet.

Lemma validateIssue_quiet octokit context issue i milestoneMap (s : St) r s' log :
  validateIssue octokit context issue i milestoneMap s = (r, s', log) -> quiet log.
Proof.
  unfold validateIssue. unfold_monad. intros H.
  repeat split_match; simplify_eq; quiet_events.
Qed.
#[local] Hint Resolve validateIssue_quiet : quiet.

Lemma createIssue_quiet octokit context issue dryRun (s : St) r s' log :
  createIssue octokit context issue dryRun s = (r, s', log) -> quiet log.
Proof.
  unfold createIssue. unfold_monad. intros H.
  repeat split_match; simplify_eq; quiet_events.
Qed.
#[local] Hint Resolve createIssue_quiet : quiet.

Lemma processIssue_quiet octokit context count milestoneMap dryRun st i issue
    (s : St) r s' log :
  processIssue octokit context count milestoneMap dryRun st i issue s = (r, s', log) ->
  quiet log.
Proof.
  unfold processIssue. unfold_monad. intros H.
  repeat split_match; simplify_eq; quiet_events.
Qed.
#[local] Hint Resolve processIssue_quiet : quiet.

Lemma runLoop_quiet octokit context count milestoneMap dryRun rest :
  forall st i (s : St) r s' log,
    runLoop octokit context count milestoneMap dryRun st i rest s = (r, s', log) ->
    quiet log.
Proof.
  induction rest as [|x rest IH]; intros st i s r s' log H.
  - injection H as _ _ <-. quiet_events.
  - cbn [runLoop] in H. unfold_monad.
    repeat split_match; simplify_eq; quiet_events.
Qed.

Lemma getMilestoneMapping_quiet octokit context (s : St) r s' log :
  getMilestoneMapping octokit context s = (r, s', log) -> quiet log.
Proof.
  unfold getMilestoneMapping. unfold_monad. intros H.
  repeat split_match; simplify_eq; quiet_events.
Qed.

Lemma logResults_quiet rs :
  forall (s : St) r s' log, logResults rs s = (r, s', log) -> quiet log.
Proof.
  induction rs as [|x rs IH]; intros s r s' log H.
  - injection H as _ _ <-. quiet_events.
  - cbn [logResults] in H. unfold logResult in H. unfold_monad.
    repeat split_match; simplify_eq; quiet_events.
Qed.

Lemma quiet_not_failed log msg : quiet log -> ~ In (EvSetFailed msg) log.
Proof.
  intros Hq Hin. unfold quiet in Hq. rewrite Forall_forall in Hq.
  apply list_elem_of_In, Hq in Hin. discriminate Hin.
Qed.

(** The part of C1 that the code keeps.  For a non-empty sequence of
    records, as long as logging the results does not throw, [run] reports
    the run as failed exactly when some record failed and the run is not a
    dry run; a dry run is then never reported as failed. *)
Lemma run_overall_status octokit context issues dryRun (s : St) :
  issues <> [] ->
  exists milestoneMap s0 ev0 st s1 ev1 log,
    getMilestoneMapping octokit context s = (Ok milestoneMap, s0, ev0)
    /\ runLoop octokit context (length issues) milestoneMap dryRun
               {| results := []; successCount := 0; failureCount := 0 |} 0 issues s0
       = (Ok st, s1, ev1)
    /\ run octokit context issues dryRun s = (Ok tt, s1, log)
    /\ In (EvSetOutput "summary" (summaryOf st)) log
    /\ (forall detail, logResults (results st) s1 = (Ok tt, s1, detail) ->
          ((exists msg, In (EvSetFailed msg) log)
           <-> (0 < failureCount st)%nat /\ dryRun = false)).
Proof.
  intros Hne.
  destruct (getMilestoneMapping_ok octokit context s) as (m & s0 & ev0 & Hm).
  set (st0 := {| results := []; successCount := 0; failureCount := 0 |}).
  destruct (runLoop_prefix octokit context (length issues) m dryRun issues st0 0%nat s0)
    as (rs & s1 & ev1 & Hl & Hlen & _).
  pose proof (results_foldl_record rs st0) as Hres. cbn [st0 results app] in Hres.
  assert (Hnonempty : results (foldl record st0 rs) <> []).
  { rewrite Hres. destruct rs, issues; simpl in *; congruence. }
  destruct (run_events octokit context issues dryRun s m s0 ev0 _ s1 ev1
              Hne Hm Hl Hnonempty) as ([r detail] & Hlog & Hrun).
  cbn [fst snd] in Hlog.
  do 7 eexists. split; [exact Hm|]. split; [exact Hl|]. split; [exact Hrun|].
  pose proof (getMilestoneMapping_quiet _ _ _ _ _ _ Hm) as Q0.
  pose proof (runLoop_quiet _ _ _ _ _ _ _ _ _ _ _ _ Hl) as Q1.
  pose proof (logResults_quiet _ _ _ _ _ Hlog) as Q2.
  split.
  - apply in_cons, in_or_app; right; apply in_or_app; right.
    do 3 right. left. reflexivity.
  - intros detail' Hok. rewrite Hok in Hlog. injection Hlog as <- <-.
    unfold closing. cbn [fst snd].
    set (failing := (0 <? Z.of_nat (failureCount (foldl record st0 rs)))
                    && negb dryRun).
    assert (Hfailing : failing = true
                       <-> (0 < failureCount (foldl record st0 rs))%nat
                           /\ dryRun = false).
    { unfold failing. rewrite andb_true_iff, Z.ltb_lt, negb_true_iff.
      split; intros [Hf Hd]; (split; [lia | exact Hd]). }
    destruct failing.
    + split; [intros _; now apply Hfailing|]. intros _. eexists.
      apply in_cons, in_or_app; right; apply in_or_app; right.
      apply in_or_app; right. apply in_or_app; right.
      right. left. reflexivity.
    + split; [|intros H; apply Hfailing in H; discriminate H].
      intros [msg Hin]. exfalso. revert Hin.
      apply quiet_not_failed. eauto 20 with quiet.
Qed.

End Status.

(* ===================================================================== *)
(** ** The statements at work on the mock client *)
(* ===================================================================== *)

(** [alice] is kept and [bob], who is not a collaborator, is dropped. *)
Lemma validateAssignees_alice_bob :
  (exists s' log,
      validateAssignees mockOctokit mockContext (Some ["alice"; "bob"]) 0%nat
      = (Ok ["alice"], s', log))
  /\ confirmed mockOctokit mockContext ["alice"; "bob"] 0%nat
     = filter (fun u => Is_true (String.eqb u "alice")) ["alice"; "bob"].
Proof.
  destruct (validateAssignees_confirmed mockOctokit mockContext ["alice"; "bob"] 0%nat)
    as ((s' & log & Hrun & _) & _ & _ & _ & Hfilter).
  split; [exists s', log; exact Hrun|].
  apply (Hfilter (fun u => String.eqb u "alice")).
  intros u st. simpl.
  destruct (String.eqb u "alice"); [reflexivity|].
  destruct (String.eqb u "bob"); reflexivity.
Defined.


(** The payload of an issue with one assignee, no label and no milestone. *)
Lemma createIssue_payload_example :
  exists p r s' log,
    createIssue mockOctokit mockContext
      {| title := "Test Issue"; body := JStr "Test body"; labels := [];
         assignees := ["user1"]; milestone := None |} false 0%nat
    = (r, s', EvIssuesCreate p :: log)
    /\ p_title p = "Test Issue" /\ p_body p = JStr "Test body"
    /\ p_labels p = None /\ p_assignees p = Some ["user1"]
    /\ forall n, p_milestone p <> Some n.
Proof.
  destruct (createIssue_payload mockOctokit mockContext
              {| title := "Test Issue"; body := JStr "Test body"; labels := [];
                 assignees := ["user1"]; milestone := None |} 0%nat)
    as (p & r & s' & log & Hrun & _ & Ht & Hb & Hl & Ha & _ & _ & Hm & _).
  exists p, r, s', log. repeat split; try assumption.
  intros n Hn. apply Hm in Hn. discriminate Hn.
Defined.


(** The end-to-end example: two issues created, one record rejected. *)
Lemma run_three_records :
  threeRecords <> []
  /\ exists s' log,
      run mockOctokit mockContext threeRecords false 0%nat = (Ok tt, s', log)
      /\ In (EvSetOutput "issues-created" "2") log
      /\ In (EvSetOutput "issues-failed" "1") log
      /\ In (EvSetOutput "summary" "Import completed: 2 successful, 1 failed") log.
Proof.
  assert (Hne : threeRecords <> []) by discriminate.
  split; [exact Hne|].
  destruct (run_accounts_for_every_record mockOctokit mockContext threeRecords false
              0%nat Hne)
    as (m & s0 & ev0 & st & s1 & ev1 & tail & Hm & Hl & _ & _ & _ & _ & Hrun).
  vm_compute in Hm. injection Hm as <- <- <-.
  vm_compute in Hl. injection Hl as <- <- <-.
  do 2 eexists. split; [exact Hrun|].
  repeat split; apply in_cons, in_or_app; right; apply in_or_app; right.
  - right. left. reflexivity.
  - right. right. left. reflexivity.
  - right. right. right. left. reflexivity.
Defined.

(* ===================================================================== *)
(** ** The embedding on the cases of the test suite *)
(* ===================================================================== *)

Section TestSuite.

Example parseLabels_array :
  parseLabels (JArr [JStr "bug"; JStr "enhancement"]) = ["bug"; "enhancement"].
Proof. reflexivity. Qed.

Example parseLabels_commas :
  parseLabels (JStr "bug,enhancement,feature") = ["bug"; "enhancement"; "feature"].
Proof. reflexivity. Qed.

Example parseLabels_semicolons :
  parseLabels (JStr "bug;enhancement;feature") = ["bug"; "enhancement"; "feature"].
Proof. reflexivity. Qed.

Example parseLabels_trims :
  parseLabels (JStr " bug , enhancement ; feature ") = ["bug"; "enhancement"; "feature"].
Proof. reflexivity. Qed.

Example parseLabels_drops_empty_strings :
  parseLabels (JArr [JStr "bug"; JStr ""; JStr "enhancement"]) = ["bug"; "enhancement"].
Proof. reflexivity. Qed.

Example parseAssignees_trims :
  parseAssignees (JStr " user1 , user2 ; user3 ") = ["user1"; "user2"; "user3"].
Proof. reflexivity. Qed.

Example validateIssue_valid :
  fst (fst (validateIssue mockOctokit mockContext
              (JObj [("title", JStr "Test Issue"); ("body", JStr "Test body");
                     ("labels", JArr [JStr "bug"; JStr "enhancement"]);
                     ("assignees", JArr [JStr "alice"])]) 0 ∅ 0%nat))
  = Ok {| title := "Test Issue"; body := JStr "Test body";
          labels := ["bug"; "enhancement"]; assignees := ["alice"];
          milestone := None |}.
Proof. reflexivity. Qed.

Example validateIssue_optional_fields :
  validateIssue mockOctokit mockContext (JObj [("title", JStr "Test Issue")]) 0 ∅ 0%nat
  = (Ok {| title := "Test Issue"; body := JStr ""; labels := []; assignees := [];
           milestone := None |}, 0%nat, []).
Proof. reflexivity. Qed.

Example validateIssue_description_as_body :
  fst (fst (validateIssue mockOctokit mockContext
              (JObj [("title", JStr "Test Issue");
                     ("description", JStr "Test description")]) 0 ∅ 0%nat))
  = Ok {| title := "Test Issue"; body := JStr "Test description"; labels := [];
          assignees := []; milestone := None |}.
Proof. reflexivity. Qed.

Example validateIssue_null_record :
  validateIssue mockOctokit mockContext JNull 2 ∅ 0%nat
  = (Throw (JsError "Cannot read properties of null (reading 'title')"), 0%nat, []).
Proof. reflexivity. Qed.

Example createIssue_created :
  fst (fst (createIssue mockOctokit mockContext
              {| title := "Test Issue"; body := JStr "Test body"; labels := ["bug"];
                 assignees := ["user1"]; milestone := None |} false 122%nat))
  = Ok (Created "Test Issue" 123 "https://github.com/test-owner/test-repo/issues/123").
Proof. reflexivity. Qed.

(** Renderings of numbers beyond 2^53, as the engine prints them. *)
Example toString_2_69 : Num.toString (Int (2 ^ 69)) = "590295810358705700000".
Proof. reflexivity. Qed.

Example toString_2_70 : Num.toString (Int (2 ^ 70)) = "1.1805916207174113e+21".
Proof. reflexivity. Qed.

Example parseInt_rounds :
  Num.toString (Num.parseInt "9007199254740993") = "9007199254740992".
Proof. reflexivity. Qed.

Example parseInt_prefix : Num.parseInt "  -12abc" = Int (-12).
Proof. reflexivity. Qed.


End TestSuite.

(* ===================================================================== *)
(** ** Decoding: the shapes [parseJsonFile] accepts *)
(* ===================================================================== *)

Section Decoding.

(** X1. [parseJsonFile] returns a list of records exactly when the decoded
    value is an array, or an object whose property [issues] is an array, and
    then returns that array; so a bare array and the same array under the key
    [issues] give the same records.  Every other outcome, a failure of the
    decoder included, is an error whose message starts with
    ["Failed to parse JSON file: "]. *)
Theorem parseJsonFile_shapes (decoded : Res JsVal) :
  (forall records,
      parseJsonFile decoded = Ok records
      <-> decoded = Ok (JArr records)
          \/ exists fields,
              decoded = Ok (JObj fields)
              /\ Js.assoc "issues" fields = Some (JArr records))
  /\ ((forall records, parseJsonFile decoded <> Ok records) ->
      exists detail,
        parseJsonFile decoded
        = Throw (JsError ("Failed to parse JSON file: " +:+ detail))).
Proof.
  split.
  - intros records. split.
    + destruct decoded as [data|error]; [|discriminate].
      destruct data as [| | | | |elems|fields]; cbn; try discriminate.
      * intros [= ->]. now left.
      * destruct (Js.assoc "issues" fields) as [[| | | | |elems|]|] eqn:E;
          cbn; try discriminate.
        intros [= ->]. right. now exists fields.
    + intros [->|(fields & -> & E)]; [reflexivity|].
      cbn. now rewrite E.
  - intros Hnone. destruct decoded as [data|error]; [|now eexists].
    destruct data as [| | | | |elems|fields]; cbn; try (now eexists).
    + now destruct (Hnone elems).
    + destruct (Js.assoc "issues" fields) as [[| | | | |elems|]|] eqn:E;
        cbn in *; try (now eexists).
      exfalso. apply (Hnone elems). now rewrite E.
Qed.

End Decoding.

(** A bare array and the same array under [issues]; a [null] document. *)
Lemma parseJsonFile_examples :
  parseJsonFile (Ok (JObj [("issues", JArr [JObj [("title", JStr "T")]])]))
  = parseJsonFile (Ok (JArr [JObj [("title", JStr "T")]]))
  /\ exists detail,
      parseJsonFile (Ok JNull)
      = Throw (JsError ("Failed to parse JSON file: " +:+ detail)).
Proof.
  split; [reflexivity|].
  apply (parseJsonFile_shapes (Ok JNull)).
  intros records. discriminate.
Defined.

(* ===================================================================== *)
(** ** The milestone map *)
(* ===================================================================== *)

Section MilestoneMap.
Context {St : Type}.
Implicit Types (octokit : Octokit St) (context : Context).

Lemma foldl_insert_lookup data :
  forall (m : gmap string Z) t,
    foldl (fun m ms => <[m_title ms := m_number ms]> m) m data !! t
    = match lastNumber t data with
      | Some number => Some number
      | None => m !! t
      end.
Proof.
  induction data as [|ms rest IH]; intros m t; [reflexivity|].
  cbn [foldl lastNumber]. rewrite IH.
  destruct (lastNumber t rest); [reflexivity|].
  destruct (String.eqb_spec (m_title ms) t) as [->|Hne].
  - apply lookup_insert_eq.
  - now apply lookup_insert_ne.
Qed.

Lemma milestoneMapOf_lookup data t :
  milestoneMapOf data !! t = lastNumber t data.
Proof.
  unfold milestoneMapOf. rewrite foldl_insert_lookup.
  now destruct (lastNumber t data).
Qed.

Lemma lastNumber_absent t data :
  t ∉ map m_title data -> lastNumber t data = None.
Proof.
  induction data as [|ms rest IH]; [reflexivity|].
  cbn [map lastNumber]. intros Hnot.
  apply not_elem_of_cons in Hnot as [Hne Hrest].
  rewrite (IH Hrest). destruct (String.eqb_spec (m_title ms) t); congruence.
Qed.

Lemma lastNumber_listed ms data :
  ms ∈ data -> NoDup (map m_title data) ->
  lastNumber (m_title ms) data = Some (m_number ms).
Proof.
  induction data as [|x rest IH]; [intros H; inversion H|].
  cbn [map lastNumber]. intros Hin Hnd.
  apply NoDup_cons in Hnd as [Hx Hnd].
  apply elem_of_cons in Hin as [->|Hin].
  - rewrite lastNumber_absent by exact Hx. now rewrite String.eqb_refl.
  - now rewrite IH.
Qed.

(** X2. [getMilestoneMapping] never throws and sends exactly one request,
    the listing of the milestones in every state ([all]).  When the listing
    is rejected it gives the empty map and one warning with the message of
    the rejection.  When it succeeds the map sends every title to the number
    of the last milestone listed under that title, and holds no other
    title. *)
Theorem getMilestoneMapping_outcome octokit context (s : St) :
  match listMilestones octokit (owner context) (repo context) "all" s with
  | (Resolved data, s1) =>
    exists milestoneMap line,
      getMilestoneMapping octokit context s
      = (Ok milestoneMap, s1,
         [EvListMilestones (owner context) (repo context) "all"; EvInfo line])
      /\ forall t, milestoneMap !! t = lastNumber t data
  | (Failure e, s1) =>
    getMilestoneMapping octokit context s
    = (Ok ∅, s1,
       [EvListMilestones (owner context) (repo context) "all";
        EvWarning ("Failed to fetch milestones: " +:+ re_message e)])
  end.
Proof.
  unfold getMilestoneMapping. unfold_monad.
  destruct (listMilestones octokit (owner context) (repo context) "all" s)
    as [[data|e] s1]; [|reflexivity].
  do 2 eexists. split; [reflexivity|]. apply milestoneMapOf_lookup.
Qed.

(** X3. A milestone the service lists can be referred to by its title:
    when the titles listed are distinct, a title that is not empty and is
    not the rendering of the integer it parses to resolves, against the map
    built from the listing, to the number of that milestone, without a
    warning. *)
Theorem resolveMilestone_listed (data : list Milestone) (ms : Milestone) (s : St) :
  ms ∈ data ->
  NoDup (map m_title data) ->
  m_title ms <> "" ->
  Num.isNaN (Num.parseInt (m_title ms)) = true
  \/ Num.toString (Num.parseInt (m_title ms)) <> m_title ms ->
  resolveMilestone (JStr (m_title ms)) (milestoneMapOf data) s
  = (Ok (Some (Int (m_number ms))), s, []).
Proof.
  intros Hin Hnd Hne Hcond.
  rewrite resolveMilestone_string by exact Hne.
  replace (negb _ && _) with false.
  - now rewrite milestoneMapOf_lookup, (lastNumber_listed ms data Hin Hnd).
  - symmetry. destruct Hcond as [->|Hneq]; [reflexivity|].
    apply String.eqb_neq in Hneq. rewrite Hneq. apply andb_false_r.
Qed.

End MilestoneMap.

(** The milestone [v1.0] among two listed milestones. *)
Lemma resolveMilestone_listed_example :
  resolveMilestone (JStr "v1.0")
    (milestoneMapOf [ {| m_title := "backlog"; m_number := 4 |};
                      {| m_title := "v1.0"; m_number := 7 |} ]) 0%nat
  = (Ok (Some (Int 7)), 0%nat, []).
Proof.
  apply (resolveMilestone_listed
           [ {| m_title := "backlog"; m_number := 4 |};
             {| m_title := "v1.0"; m_number := 7 |} ]
           {| m_title := "v1.0"; m_number := 7 |} 0%nat).
  - repeat constructor.
  - apply (bool_decide_unpack _). vm_compute. reflexivity.
  - discriminate.
  - left. reflexivity.
Defined.

(* ===================================================================== *)
(** ** The kinds of events each function emits *)
(* ===================================================================== *)

Lemma every_nil P : every P [].
Proof. constructor. Qed.

Lemma every_cons P e log : P e = true -> every P log -> every P (e :: log).
Proof. now constructor. Qed.

Lemma every_app P a b : every P a -> every P b -> every P (a ++ b).
Proof. apply Forall_app_2. Qed.

Lemma every_impl (P Q : Event -> bool) log :
  (forall e, P e = true -> Q e = true) -> every P log -> every Q log.
Proof. intros H Hall. eapply Forall_impl; [exact Hall | exact H]. Qed.

Lemma every_filter_false (P Q : Event -> bool) log :
  (forall e, P e = true -> Q e = false) ->
  every P log -> filter (fun e => Is_true (Q e)) log = [].
Proof.
  intros H Hall. induction Hall as [|e log He _ IH]; [reflexivity|].
  rewrite filter_cons_False; [exact IH|]. rewrite (H e He). exact id.
Qed.

Create HintDb events.
#[export] Hint Resolve every_nil every_cons every_app : events.
#[export] Hint Extern 1 (_ = true) => reflexivity : events.

Ltac case_match_hyp :=
  match goal with
  | H : context [match ?x with _ => _ end] |- _ => destruct x eqn:?
  end.

Ltac events_of H :=
  unfold_monad; repeat case_match_hyp; simplify_eq; eauto 20 with events.

Section EventKinds.
Context {St : Type}.
Implicit Types (octokit : Octokit St) (context : Context).

Lemma checkAssignees_events octokit context candidates :
  forall valid (s : St) r s' log,
    checkAssignees octokit context valid candidates s = (r, s', log) ->
    every isValidationEvent log.
Proof.
  induction candidates as [|u rest IH]; intros valid s r s' log H.
  - injection H as _ _ <-. apply every_nil.
  - cbn [checkAssignees] in H.
    pose proof (checkAssignee_step octokit context valid u s) as Hstep.
    destruct (checkCollaborator octokit (owner context) (repo context) u s)
      as [[[]|e] s1]; destruct Hstep as [line Hstep];
      rewrite (bind_ok _ _ _ _ _ _ Hstep) in H;
      case_match_hyp; case_match_hyp; injection H as _ _ <-;
      apply IH in Heqp; eauto 20 with events.
Qed.

Lemma validateAssignees_events octokit context assignees (s : St) r s' log :
  validateAssignees octokit context assignees s = (r, s', log) ->
  every isValidationEvent log.
Proof.
  destruct assignees as [[|u rest]|]; cbn [validateAssignees].
  - intros [= _ _ <-]. apply every_nil.
  - apply checkAssignees_events.
  - intros [= _ _ <-]. apply every_nil.
Qed.

(** Resolving a milestone does not reach the service; it throws only when
    the reference cannot be converted to a string. *)
Lemma resolveMilestone_local v (milestoneMap : gmap string Z) (s : St) :
  exists r log,
    resolveMilestone v milestoneMap s = (r, s, log)
    /\ every isWarning log
    /\ ((exists t, r = Throw t) <-> Js.toStr v = None).
Proof.
  assert (Hdone : forall (r : option JsNum) log,
             every isWarning log ->
             forall str, Js.toStr v = Some str ->
             exists r' log',
               (Ok r, s, log) = (r', s, log') /\ every isWarning log'
               /\ ((exists t, r' = Throw t) <-> Js.toStr v = None)).
  { intros r log Hlog str Hstr. exists (Ok r), log.
    split; [reflexivity|]. split; [exact Hlog|].
    split; [intros [t [=]] | congruence]. }
  unfold resolveMilestone, toStringM.
  destruct (Js.toStr v) as [str|] eqn:Hstr.
  - destruct (negb (Js.truthy v)); [eapply Hdone; eauto with events|].
    assert (Hgo : exists r' log',
               (let parsed := Num.parseInt str in
                if negb (Num.isNaN parsed) && String.eqb (Num.toString parsed) str
                then mret (Some parsed)
                else match mapGet milestoneMap v with
                     | Some number => mret (Some (Int number))
                     | None =>
                       core_warning ("Milestone " +:+ Str.quote +:+ str +:+ Str.quote
                                     +:+ " not found in repository. "
                                     +:+ "Issue will be created without milestone.")
                         ≫= fun _ => mret None
                     end) s = (r', s, log') /\ every isWarning log'
               /\ ((exists t, r' = Throw t) <-> Some str = None)).
    { cbv zeta. destruct (negb _ && _); [eapply Hdone; eauto with events|].
      destruct (mapGet milestoneMap v); unfold_monad;
        eapply Hdone; eauto with events. }
    destruct Hgo as (r' & log' & Hrun & Hlog & Hiff).
    destruct v as [| |b|n|s0|elems|fields];
      try (unfold_monad; cbv beta iota; cbv zeta in Hrun; rewrite Hrun;
           do 2 eexists; split; [reflexivity|]; split; [exact Hlog | exact Hiff]).
    eapply Hdone; eauto with events.
  - destruct v as [| |b|n|s0|elems|fields]; try discriminate Hstr.
    all: cbn [Js.truthy negb]; unfold_monad.
    all: do 2 eexists; (split; [reflexivity|]); (split; [apply every_nil|]).
    all: split; [reflexivity | now eexists].
Qed.

End EventKinds.

(* ===================================================================== *)
(** ** What validating a record does *)
(* ===================================================================== *)

Section ValidateIssue.
Context {St : Type}.
Implicit Types (octokit : Octokit St) (context : Context).

(** A record with a valid title: the assignees are checked, then the
    milestone is resolved, and the issue is built from the two. *)
Lemma validateIssue_valid_title octokit context issue i milestoneMap (s : St) t raw :
  Js.prop issue "title" = Some t ->
  validTitle t = Some raw ->
  exists valid s1 ev1 rm ev2,
    validateAssignees octokit context
      (Some (parseAssignees (Js.optProp issue "assignees"))) s = (Ok valid, s1, ev1)
    /\ resolveMilestone (Js.optProp issue "milestone") milestoneMap s1 = (rm, s1, ev2)
    /\ every isWarning ev2
    /\ ((exists e, rm = Throw e) <-> Js.toStr (Js.optProp issue "milestone") = None)
    /\ validateIssue octokit context issue i milestoneMap s
       = (match rm with
          | Ok resolved =>
            Ok {| title := Str.trim raw;
                  body := Js.or (Js.optProp issue "body")
                                (Js.or (Js.optProp issue "description") (JStr ""));
                  labels := parseLabels (Js.optProp issue "labels");
                  assignees := valid;
                  milestone := resolved |}
          | Throw e => Throw e
          end, s1, ev1 ++ ev2).
Proof.
  intros Hprop Hvalid.
  destruct (validateAssignees_ok octokit context
              (Some (parseAssignees (Js.optProp issue "assignees"))) s)
    as (valid & s1 & ev1 & Ha).
  destruct (resolveMilestone_local (Js.optProp issue "milestone") milestoneMap s1)
    as (rm & ev2 & Hr & Hw & Hiff).
  exists valid, s1, ev1, rm, ev2. repeat (split; [assumption|]).
  unfold validateIssue. rewrite Hprop, Hvalid.
  unfold_monad. cbv beta. rewrite Ha. cbv beta iota. rewrite Hr.
  destruct rm; cbv beta iota; now rewrite ?app_nil_r.
Qed.

Lemma validTitle_string t raw : validTitle t = Some raw -> t = JStr raw.
Proof.
  unfold validTitle. destruct (negb (Js.truthy t)); [discriminate|].
  destruct t; try discriminate. destruct (String.eqb _ _); [discriminate|].
  now intros [= ->].
Qed.

(** X4. [validateIssue] throws in exactly three cases: the record is
    [null] or [undefined], its title is invalid, or its milestone is an
    array or object that cannot be converted to a string.  Rejected
    collaborator checks and unknown milestone titles never fail a record. *)
Theorem validateIssue_throws_exactly octokit context issue i milestoneMap (s : St) :
  exists r s' log,
    validateIssue octokit context issue i milestoneMap s = (r, s', log)
    /\ ((exists e, r = Throw e)
        <-> Js.prop issue "title" = None
            \/ (exists t, Js.prop issue "title" = Some t /\ validTitle t = None)
            \/ Js.toStr (Js.optProp issue "milestone") = None).
Proof.
  destruct (Js.prop issue "title") as [t|] eqn:Hprop.
  - destruct (validTitle t) as [raw|] eqn:Hvalid.
    + destruct (validateIssue_valid_title octokit context issue i milestoneMap s t raw
                  Hprop Hvalid)
        as (valid & s1 & ev1 & rm & ev2 & _ & _ & _ & Hiff & Hrun).
      do 3 eexists. split; [exact Hrun|]. split.
      * intros [e He]. right. right. apply Hiff.
        destruct rm; [discriminate He | now eexists].
      * intros [H|[(t' & [= <-] & H)|H]]; try congruence.
        apply Hiff in H as [e ->]. now eexists.
    + do 3 eexists. split.
      * unfold validateIssue. rewrite Hprop, Hvalid. reflexivity.
      * split; [|now eexists]. intros _. right. left. now exists t.
  - do 3 eexists. split.
    + unfold validateIssue. rewrite Hprop. reflexivity.
    + split; [now left | now eexists].
Qed.

(** X5. What [validateIssue] does to the outside.  It only ever emits
    collaborator checks, debug lines and warnings.  For a record with a
    valid title the requests it sends are exactly one collaborator check
    per assignee parsed from the record, in their order, whether or not
    the milestone then makes it throw; the service is left in the state
    these checks lead to. *)
Theorem validateIssue_requests octokit context issue i milestoneMap (s : St) :
  exists r s' log,
    validateIssue octokit context issue i milestoneMap s = (r, s', log)
    /\ every isValidationEvent log
    /\ forall raw,
        Js.prop issue "title" = Some (JStr raw) ->
        Str.trim raw <> "" ->
        filter (fun e => Is_true (isRemoteCall e)) log
        = map (EvCheckCollaborator (owner context) (repo context))
              (parseAssignees (Js.optProp issue "assignees"))
        /\ exists valid ev,
            validateAssignees octokit context
              (Some (parseAssignees (Js.optProp issue "assignees"))) s
            = (Ok valid, s', ev).
Proof.
  destruct (Js.prop issue "title") as [t|] eqn:Hprop.
  - destruct (validTitle t) as [raw|] eqn:Hvalid.
    + destruct (validateIssue_valid_title octokit context issue i milestoneMap s t raw
                  Hprop Hvalid)
        as (valid & s1 & ev1 & rm & ev2 & Ha & _ & Hw & _ & Hrun).
      pose proof (validateAssignees_events _ _ _ _ _ _ _ Ha) as Hev1.
      do 3 eexists. split; [exact Hrun|]. split.
      * apply every_app; [exact Hev1|].
        eapply every_impl; [|exact Hw]. now intros [].
      * intros raw' _ _. split; [|eauto].
        rewrite filter_app.
        rewrite (every_filter_false isWarning isRemoteCall ev2) by
            (exact Hw || now intros []).
        rewrite app_nil_r.
        destruct (parseAssignees (Js.optProp issue "assignees")) as [|u rest] eqn:Ep.
        { now injection Ha as _ _ <-. }
        destruct (checkAssignees_confirmed octokit context (u :: rest) [] s)
          as (s2 & log2 & Hc & Hcalls & _).
        cbn [validateAssignees] in Ha. rewrite Hc in Ha.
        now injection Ha as _ _ <-.
    + do 3 eexists. split.
      * unfold validateIssue. rewrite Hprop, Hvalid. reflexivity.
      * split; [apply every_nil|]. intros raw [= ->] Hnb.
        unfold validTitle in Hvalid. destruct raw as [|c r]; [now destruct Hnb|].
        cbn [Js.truthy Str.nonEmpty negb] in Hvalid.
        apply String.eqb_neq in Hnb. now rewrite Hnb in Hvalid.
  - do 3 eexists. split.
    + unfold validateIssue. rewrite Hprop. reflexivity.
    + split; [apply every_nil | discriminate].
Qed.

End ValidateIssue.

(* ===================================================================== *)
(** ** Trimming *)
(* ===================================================================== *)

Section Trimming.

Lemma append_cons a s t : String a s +:+ t = String a (s +:+ t).
Proof. reflexivity. Qed.

Lemma append_assoc s1 s2 s3 : s1 +:+ (s2 +:+ s3) = (s1 +:+ s2) +:+ s3.
Proof.
  induction s1 as [|a s1 IH]; [reflexivity|]. now rewrite !append_cons, IH.
Qed.

Lemma rev_app_append s1 : forall s2, String.rev_app s1 s2 = String.rev s1 +:+ s2.
Proof.
  unfold String.rev. induction s1 as [|a s1 IH]; intros s2; [reflexivity|].
  cbn [String.rev_app]. rewrite IH, (IH (String a "")).
  now rewrite <- append_assoc.
Qed.

Lemma rev_cons a s : String.rev (String a s) = String.rev s +:+ String a "".
Proof. unfold String.rev at 1. cbn [String.rev_app]. apply rev_app_append. Qed.

Lemma append_empty_r s : s +:+ "" = s.
Proof. induction s as [|a s IH]; [reflexivity|]. now rewrite append_cons, IH. Qed.

Lemma rev_append s1 s2 : String.rev (s1 +:+ s2) = String.rev s2 +:+ String.rev s1.
Proof.
  induction s1 as [|a s1 IH].
  - change ("" +:+ s2) with s2. now rewrite append_empty_r.
  - now rewrite append_cons, !rev_cons, IH, append_assoc.
Qed.

Lemma rev_involutive s : String.rev (String.rev s) = s.
Proof.
  induction s as [|a s IH]; [reflexivity|].
  now rewrite rev_cons, rev_append, IH.
Qed.

Lemma strip_fixed back s : leadingSpace back s = false -> Str.strip back s = s.
Proof.
  destruct s as [|a [|b [|c s3]]]; cbn [leadingSpace Str.strip]; try reflexivity.
  - intros H. apply orb_false_elim in H as [-> _]. reflexivity.
  - intros H. apply orb_false_elim in H as [-> H].
    apply orb_false_elim in H as [-> _]. reflexivity.
  - intros H. apply orb_false_elim in H as [-> H].
    apply orb_false_elim in H as [-> ->]. reflexivity.
Qed.

Lemma strip_leaves back n :
  forall s, (String.length s <= n)%nat ->
            leadingSpace back (Str.strip back s) = false
            /\ exists p, s = p +:+ Str.strip back s.
Proof.
  induction n as [|n IH]; intros s Hlen.
  { destruct s; [split; [reflexivity | now exists ""] | cbn in Hlen; lia]. }
  destruct s as [|a s1]; [split; [reflexivity | now exists ""]|].
  cbn [String.length] in Hlen. cbn [Str.strip].
  destruct (Str.ws1 (Str.code a)) eqn:E1.
  { destruct (IH s1 ltac:(lia)) as [Hc [p Hp]]. split; [exact Hc|].
    exists (String a p). rewrite append_cons. now rewrite <- Hp. }
  destruct s1 as [|b s2].
  { split; [cbn [leadingSpace]; now rewrite E1 | now exists ""]. }
  cbn [String.length] in Hlen.
  destruct (if back then Str.ws2 (Str.code b) (Str.code a)
            else Str.ws2 (Str.code a) (Str.code b)) eqn:E2.
  { destruct (IH s2 ltac:(lia)) as [Hc [p Hp]]. split; [exact Hc|].
    exists (String a (String b p)). rewrite !append_cons. now rewrite <- Hp. }
  destruct s2 as [|c s3].
  { split; [cbn [leadingSpace]; now rewrite E1, E2 | now exists ""]. }
  cbn [String.length] in Hlen.
  destruct (if back then Str.ws3 (Str.code c) (Str.code b) (Str.code a)
            else Str.ws3 (Str.code a) (Str.code b) (Str.code c)) eqn:E3.
  { destruct (IH s3 ltac:(lia)) as [Hc [p Hp]]. split; [exact Hc|].
    exists (String a (String b (String c p))). rewrite !append_cons.
    now rewrite <- Hp. }
  split; [cbn [leadingSpace]; now rewrite E1, E2, E3 | now exists ""].
Qed.

Lemma strip_clean back s : leadingSpace back (Str.strip back s) = false.
Proof. now apply (strip_leaves back (String.length s) s). Qed.

Lemma strip_suffix back s : exists p, s = p +:+ Str.strip back s.
Proof. now apply (strip_leaves back (String.length s) s). Qed.

(** What starts a string starts every extension of it. *)
Lemma leadingSpace_prefix back p q :
  leadingSpace back (p +:+ q) = false -> leadingSpace back p = false.
Proof.
  destruct p as [|a [|b [|c p3]]]; rewrite ?append_cons;
    change ("" +:+ q) with q; cbn [leadingSpace]; try reflexivity.
  - intros H. apply orb_false_elim in H as [-> _]. reflexivity.
  - intros H. apply orb_false_elim in H as [-> H].
    destruct q; [exact H|]. apply orb_false_elim in H as [-> _]. reflexivity.
  - intros H. exact H.
Qed.

(** Trimming is idempotent: what [trim] returns has no white space left at
    either end. *)
Lemma trim_idempotent s : Str.trim (Str.trim s) = Str.trim s.
Proof.
  unfold Str.trim, Str.trimEnd, Str.trimStart.
  set (t := Str.strip false s).
  set (u := Str.strip true (String.rev t)).
  assert (Hfront : Str.strip false (String.rev u) = String.rev u).
  { apply strip_fixed.
    destruct (strip_suffix true (String.rev t)) as [w Hw]. fold u in Hw.
    apply (f_equal String.rev) in Hw. rewrite rev_involutive, rev_append in Hw.
    apply (leadingSpace_prefix false _ (String.rev w)). rewrite <- Hw.
    apply strip_clean. }
  rewrite Hfront, rev_involutive.
  now rewrite (strip_fixed true u) by apply strip_clean.
Qed.

Lemma avoids_append c s1 s2 : avoids c (s1 +:+ s2) = avoids c s1 && avoids c s2.
Proof.
  induction s1 as [|a s1 IH]; [reflexivity|].
  rewrite append_cons. cbn [avoids]. now rewrite IH, andb_assoc.
Qed.

Lemma avoids_rev c s : avoids c (String.rev s) = avoids c s.
Proof.
  induction s as [|a s IH]; [reflexivity|].
  rewrite rev_cons, avoids_append, IH. cbn [avoids].
  now rewrite andb_true_r, andb_comm.
Qed.

Lemma avoids_strip c back s : avoids c s = true -> avoids c (Str.strip back s) = true.
Proof.
  destruct (strip_suffix back s) as [p Hp]. intros H.
  rewrite Hp, avoids_append in H. now apply andb_prop in H as [_ H].
Qed.

Lemma avoids_trim c s : avoids c s = true -> avoids c (Str.trim s) = true.
Proof.
  intros H. unfold Str.trim, Str.trimEnd, Str.trimStart.
  rewrite avoids_rev. apply avoids_strip. rewrite avoids_rev.
  now apply avoids_strip.
Qed.

Lemma splitOn_avoids sep c s :
  sep c = true -> Forall (fun piece => avoids c piece = true) (Str.splitOn sep s).
Proof.
  intros Hc. induction s as [|a s IH]; [repeat constructor|].
  cbn [Str.splitOn]. destruct (sep a) eqn:Ea; [now constructor|].
  destruct (Str.splitOn sep s) as [|p ps].
  - repeat constructor. cbn [avoids].
    destruct (Ascii.eqb_spec a c) as [->|]; [congruence | reflexivity].
  - inversion IH as [|? ? Hp Hps]; subst. constructor; [|exact Hps].
    cbn [avoids]. rewrite Hp.
    destruct (Ascii.eqb_spec a c) as [->|]; [congruence | reflexivity].
Qed.

End Trimming.

(* ===================================================================== *)
(** ** Well-formed labels, assignees and issues *)
(* ===================================================================== *)

Section WellFormed.
Context {St : Type}.
Implicit Types (octokit : Octokit St) (context : Context).

Lemma sublist_Forall_keeps {A} (P : A -> Prop) (l1 l2 : list A) :
  sublist l1 l2 -> Forall P l2 -> Forall P l1.
Proof.
  induction 1 as [|x l1 l2 _ IH|x l1 l2 _ IH]; intros H; [constructor| |].
  - inversion H; subst. constructor; auto.
  - inversion H; subst. auto.
Qed.

Lemma nonEmpty_not_empty s : Str.nonEmpty s = true <-> s <> "".
Proof. destruct s; cbn; split; congruence. Qed.

(** X6. The lists [parseLabels] and [parseAssignees] return never hold an
    empty string.  From a string, every entry is trimmed and contains
    neither a comma nor a semicolon.  From an array, the entries are
    strings of the array, in the order of the array and as they are
    written there. *)
Theorem parseLabels_wellformed (v : JsVal) :
  parseAssignees v = parseLabels v
  /\ Forall (fun l => l <> "") (parseLabels v)
  /\ (forall s, v = JStr s ->
                Forall (fun l => Str.trim l = l
                                 /\ avoids "," l = true /\ avoids ";" l = true)
                       (parseLabels v))
  /\ (forall elems, v = JArr elems -> sublist (JStr <$> parseLabels v) elems).
Proof.
  split; [reflexivity|].
  assert (Hstr : forall s,
             Forall (fun l => l <> "" /\ Str.trim l = l
                              /\ avoids "," l = true /\ avoids ";" l = true)
                    (parseLabels (JStr s))).
  { intros s. unfold parseLabels. destruct (negb (Js.truthy (JStr s))); [constructor|].
    rewrite split_replaceSemicolons. apply Forall_forall. intros l Hin.
    apply list_elem_of_filter in Hin as [Hne Hin].
    apply list_elem_of_In, in_map_iff in Hin as (piece & <- & Hpiece).
    apply list_elem_of_In in Hpiece.
    pose proof (splitOn_avoids isSeparator "," s eq_refl) as Hcomma.
    pose proof (splitOn_avoids isSeparator ";" s eq_refl) as Hsemi.
    rewrite Forall_forall in Hcomma, Hsemi.
    split; [now apply nonEmpty_not_empty, Is_true_true|].
    split; [apply trim_idempotent|].
    split; apply avoids_trim; auto. }
  assert (Harr : forall elems,
             Forall (fun l => l <> "") (nonEmptyStrings elems)
             /\ sublist (JStr <$> nonEmptyStrings elems) elems).
  { induction elems as [|x elems [IH1 IH2]]; [split; constructor|].
    unfold nonEmptyStrings in *. cbn [omap list_omap].
    destruct x as [| | | |s| |]; try (split; [exact IH1 | now apply sublist_cons]).
    destruct (Str.nonEmpty s) eqn:Es.
    - split; [constructor; [now apply nonEmpty_not_empty | exact IH1]|].
      cbn [fmap list_fmap]. now apply sublist_skip.
    - split; [exact IH1 | now apply sublist_cons]. }
  split; [|split].
  - destruct v as [| | | |s|elems|]; try (unfold parseLabels; now destruct (negb _)).
    + eapply Forall_impl; [apply Hstr|]. now intros l [H _].
    + unfold parseLabels. cbn [Js.truthy negb]. apply Harr.
  - intros s ->. eapply Forall_impl; [apply Hstr|]. now intros l [_ H].
  - intros elems ->. unfold parseLabels. cbn [Js.truthy negb]. apply Harr.
Qed.

Lemma toStringM_bind {B} v (K : string -> M St B) (s : St) :
  (toStringM v ≫= K) s
  = match Js.toStr v with
    | Some str => K str s
    | None => (Throw (JsError "Cannot convert object to primitive value"), s, [])
    end.
Proof.
  unfold toStringM. destruct (Js.toStr v) as [str|]; unfold_monad; [|reflexivity].
  now destruct (K str s) as [[r s2] ev2].
Qed.

Lemma resolveMilestone_number v (milestoneMap : gmap string Z) (s : St) n s' log :
  resolveMilestone v milestoneMap s = (Ok (Some n), s', log) -> Num.isNaN n = false.
Proof.
  unfold resolveMilestone. destruct (negb (Js.truthy v)) eqn:Hf; [discriminate|].
  destruct v as [| |b|m|str|elems|fields];
    try (rewrite toStringM_bind;
         match goal with |- context [Js.toStr ?x] => destruct (Js.toStr x) end;
         [|discriminate]; cbv zeta;
         destruct (negb _ && _) eqn:Hc;
         [intros [= <- _ _]; apply andb_prop in Hc as [Hc _];
          now apply negb_true_iff in Hc|];
         match goal with |- context [mapGet ?m ?x] => destruct (mapGet m x) end;
         unfold_monad; [now intros [= <- _ _] | discriminate]).
  intros [= <- _ _]. cbn [Js.truthy] in Hf. now destruct m.
Qed.

End WellFormed.

Section Normalized.
Context {St : Type}.
Implicit Types (octokit : Octokit St) (context : Context).

(** X7. The issue [validateIssue] returns is well formed.  Its title is
    the trimmed title of the record, is not empty and has no white space
    left at either end; its body is the empty string or a truthy value,
    never [null] or [undefined]; no label and no assignee is the empty
    string; its assignees are a sub-sequence of the assignees written in
    the record; and its milestone, when there is one, is not [NaN]. *)
Theorem validateIssue_normalized octokit context issue i milestoneMap (s : St)
    normalized s' log :
  validateIssue octokit context issue i milestoneMap s = (Ok normalized, s', log) ->
  (exists raw, Js.prop issue "title" = Some (JStr raw)
               /\ title normalized = Str.trim raw)
  /\ title normalized <> ""
  /\ Str.trim (title normalized) = title normalized
  /\ (body normalized = JStr "" \/ Js.truthy (body normalized) = true)
  /\ Forall (fun l => l <> "") (labels normalized)
  /\ Forall (fun a => a <> "") (assignees normalized)
  /\ sublist (assignees normalized) (parseAssignees (Js.optProp issue "assignees"))
  /\ (forall n, milestone normalized = Some n -> Num.isNaN n = false).
Proof.
  intros Hrun.
  destruct (Js.prop issue "title") as [t|] eqn:Hprop;
    [|unfold validateIssue in Hrun; rewrite Hprop in Hrun; discriminate Hrun].
  destruct (validTitle t) as [raw|] eqn:Hvalid;
    [|unfold validateIssue in Hrun; rewrite Hprop, Hvalid in Hrun; discriminate Hrun].
  destruct (validateIssue_valid_title octokit context issue i milestoneMap s t raw
              Hprop Hvalid)
    as (valid & s1 & ev1 & rm & ev2 & Ha & Hr & _ & _ & Hrun').
  rewrite Hrun' in Hrun. destruct rm as [resolved|]; [|discriminate Hrun].
  injection Hrun as <- _ _. cbn [title body labels assignees milestone].
  pose proof (validTitle_string t raw Hvalid) as ->.
  assert (Hsub : sublist valid (parseAssignees (Js.optProp issue "assignees"))).
  { destruct (parseAssignees (Js.optProp issue "assignees")) as [|u rest] eqn:Ep.
    - injection Ha as <- _ _. constructor.
    - destruct (checkAssignees_confirmed octokit context (u :: rest) [] s)
        as (s2 & log2 & Hc & _).
      cbn [validateAssignees] in Ha. rewrite Hc in Ha. injection Ha as <- _ _.
      exact (confirmed_sublist octokit context (u :: rest) s). }
  destruct (parseLabels_wellformed (Js.optProp issue "labels")) as (_ & Hlabels & _).
  destruct (parseLabels_wellformed (Js.optProp issue "assignees"))
    as (Hsame & Hassignees & _).
  split; [now exists raw|]. split.
  { unfold validTitle in Hvalid. destruct (negb _); [discriminate|].
    destruct (String.eqb_spec (Str.trim raw) ""); [discriminate | assumption]. }
  split; [apply trim_idempotent|]. split.
  { unfold Js.or. destruct (Js.truthy (Js.optProp issue "body")) eqn:Eb; [now right|].
    destruct (Js.truthy (Js.optProp issue "description")) eqn:Ed; [now right | now left]. }
  split; [exact Hlabels|]. split.
  { eapply sublist_Forall_keeps; [exact Hsub|]. now rewrite Hsame. }
  split; [exact Hsub|].
  intros n ->. eapply resolveMilestone_number. exact Hr.
Qed.

End Normalized.

(** A record with padded title, mixed separators and an unknown assignee. *)
Lemma validateIssue_normalized_example :
  exists normalized,
    fst (fst (validateIssue mockOctokit mockContext
                (JObj [("title", JStr "  Fix login  "); ("labels", JStr "bug; ui,,");
                       ("assignees", JStr "alice;bob")]) 0 ∅ 0%nat))
    = Ok normalized
    /\ title normalized <> ""
    /\ Str.trim (title normalized) = title normalized
    /\ Forall (fun l => l <> "") (labels normalized)
    /\ sublist (assignees normalized) ["alice"; "bob"].
Proof.
  destruct (validateIssue mockOctokit mockContext
              (JObj [("title", JStr "  Fix login  "); ("labels", JStr "bug; ui,,");
                     ("assignees", JStr "alice;bob")]) 0 ∅ 0%nat)
    as [[r s'] log] eqn:Hrun.
  assert (Hr : exists normalized, r = Ok normalized).
  { vm_compute in Hrun. injection Hrun as <- _ _. now eexists. }
  destruct Hr as [normalized ->]. exists normalized.
  destruct (validateIssue_normalized _ _ _ _ _ _ _ _ _ Hrun)
    as (_ & Hne & Htrim & _ & Hlabels & _ & Hsub & _).
  repeat split; assumption.
Defined.

(* ===================================================================== *)
(** ** Creating, pausing and the dry run *)
(* ===================================================================== *)

Section Creation.
Context {St : Type}.
Implicit Types (octokit : Octokit St) (context : Context).

Lemma validateIssue_events octokit context issue i milestoneMap (s : St) r s' log :
  validateIssue octokit context issue i milestoneMap s = (r, s', log) ->
  every isValidationEvent log.
Proof.
  intros Hrun.
  destruct (Js.prop issue "title") as [t|] eqn:Hprop;
    [|unfold validateIssue in Hrun; rewrite Hprop in Hrun;
      injection Hrun as _ _ <-; apply every_nil].
  destruct (validTitle t) as [raw|] eqn:Hvalid;
    [|unfold validateIssue in Hrun; rewrite Hprop, Hvalid in Hrun;
      injection Hrun as _ _ <-; apply every_nil].
  destruct (validateIssue_valid_title octokit context issue i milestoneMap s t raw
              Hprop Hvalid)
    as (valid & s1 & ev1 & rm & ev2 & Ha & _ & Hw & _ & Hrun').
  rewrite Hrun' in Hrun. injection Hrun as _ _ <-.
  apply every_app; [eapply validateAssignees_events; exact Ha|].
  eapply every_impl; [|exact Hw]. now intros [].
Qed.

Lemma createIssue_events octokit context issue dryRun (s : St) r s' log :
  createIssue octokit context issue dryRun s = (r, s', log) ->
  every isCreationEvent log.
Proof. unfold createIssue. intros H. events_of H. Qed.

Lemma createIssue_dry_events octokit context issue (s : St) r s' log :
  createIssue octokit context issue true s = (r, s', log) -> every isInfo log.
Proof. unfold createIssue. intros H. events_of H. Qed.


Lemma processIssue_pause_shape octokit context count milestoneMap dryRun st i issue
    (s : St) :
  exists st' s' before,
    processIssue octokit context count milestoneMap dryRun st i issue s
    = (Ok st', s',
       before
       ++ (if (if fst (fst (validateIssue octokit context issue i milestoneMap s))
                  is Ok _ then true else false)
              && negb dryRun && (Z.of_nat i <? Z.of_nat count - 1)
           then [EvSleep 100] else []))
    /\ filter (fun e => Is_true (isSleep e)) before = [].
Proof.
  destruct (validateIssue octokit context issue i milestoneMap s)
    as [[[v|t] s1] ev1] eqn:Ev; cbn [fst].
  - destruct (createIssue octokit context v dryRun s1) as [[r s2] ev2] eqn:Ec.
    destruct (createIssue_ok octokit context v dryRun s1) as (o & ? & ? & Ec').
    rewrite Ec in Ec'. injection Ec' as -> _ _.
    pose proof (validateIssue_events _ _ _ _ _ _ _ _ _ Ev) as H1.
    pose proof (createIssue_events _ _ _ _ _ _ _ _ Ec) as H2.
    assert (Hquiet : filter (fun e => Is_true (isSleep e)) (ev1 ++ ev2) = []).
    { rewrite filter_app.
      rewrite (every_filter_false isValidationEvent isSleep ev1)
        by (exact H1 || now intros []).
      now rewrite (every_filter_false isCreationEvent isSleep ev2)
        by (exact H2 || now intros []). }
    unfold processIssue. cbn [andb].
    destruct (negb dryRun && (Z.of_nat i <? Z.of_nat count - 1)) eqn:Epause.
    all: unfold_monad; cbv beta; rewrite Ev; cbv beta iota; rewrite Ec;
      cbv beta iota.
    all: do 3 eexists; split; [|exact Hquiet].
    all: rewrite ?app_nil_r, ?app_assoc; reflexivity.
  - rewrite (processIssue_invalid _ _ _ _ _ _ _ _ _ _ _ _ Ev). cbn [andb].
    do 3 eexists. split; [now rewrite app_nil_r|].
    pose proof (validateIssue_events _ _ _ _ _ _ _ _ _ Ev) as H1.
    rewrite filter_app.
    now rewrite (every_filter_false isValidationEvent isSleep ev1)
      by (exact H1 || now intros []).
Qed.


Lemma runLoop_pauses_from octokit context count milestoneMap dryRun rest :
  forall st i (s : St),
    (i + length rest = count)%nat ->
    exists st' s' log,
      runLoop octokit context count milestoneMap dryRun st i rest s = (Ok st', s', log)
      /\ (length (filter (fun e => Is_true (isSleep e)) log) <= length rest - 1)%nat
      /\ (dryRun = true -> filter (fun e => Is_true (isSleep e)) log = []).
Proof.
  induction rest as [|x rest IH]; intros st i s Hcount.
  - exists st, s, []. repeat split. cbn. lia.
  - destruct (processIssue_pause_shape octokit context count milestoneMap dryRun
                st i x s) as (st1 & s1 & before & Hp & Hbefore).
    cbn [length] in Hcount.
    destruct (IH st1 (S i) s1 ltac:(lia)) as (st2 & s2 & log2 & Hl & Hbound & Hdry).
    do 3 eexists. split; [|split].
    + cbn [runLoop]. rewrite (bind_ok _ _ _ _ _ _ Hp), Hl. reflexivity.
    + rewrite !filter_app, Hbefore, !length_app. cbn [app length].
      destruct rest as [|y rest].
      * replace (Z.of_nat i <? Z.of_nat count - 1) with false
          by (symmetry; apply Z.ltb_ge; cbn [length] in Hcount; lia).
        rewrite andb_false_r, filter_nil. cbn [length] in *. lia.
      * assert (Hone : forall c : bool,
                   (length (filter (fun e => Is_true (isSleep e))
                                   (if c then [EvSleep 100] else [])) <= 1)%nat)
          by (intros []; [rewrite filter_cons_True by exact I|];
            rewrite filter_nil; cbn [length]; lia).
        specialize (Hone ((if fst (fst (validateIssue octokit context x i
                                           milestoneMap s)) is Ok _
                           then true else false)
                          && negb dryRun && (Z.of_nat i <? Z.of_nat count - 1))).
        cbn [length] in *. lia.
    + intros ->. rewrite !filter_app, Hbefore, (Hdry eq_refl).
      cbn [negb]. now rewrite andb_false_r.
Qed.

(** X13. Over a whole run of the loop on [n] records there are at most
    [n - 1] pauses, and none at all in a dry run. *)
Theorem runLoop_pauses octokit context milestoneMap dryRun issues (s : St) :
  exists st s' log,
    runLoop octokit context (length issues) milestoneMap dryRun
            {| results := []; successCount := 0; failureCount := 0 |} 0 issues s
    = (Ok st, s', log)
    /\ (length (filter (fun e => Is_true (isSleep e)) log) <= length issues - 1)%nat
    /\ (dryRun = true -> filter (fun e => Is_true (isSleep e)) log = []).
Proof. now apply runLoop_pauses_from. Qed.

End Creation.

Section DryRun.
Context {St : Type}.
Implicit Types (octokit : Octokit St) (context : Context).

Lemma processIssue_dry octokit context count milestoneMap st i issue (s : St) r s' log :
  processIssue octokit context count milestoneMap true st i issue s = (r, s', log) ->
  every isReadOnly log.
Proof.
  destruct (validateIssue octokit context issue i milestoneMap s)
    as [[[v|t] s1] ev1] eqn:Ev.
  - destruct (createIssue octokit context v true s1) as [[o s2] ev2] eqn:Ec.
    pose proof (validateIssue_events _ _ _ _ _ _ _ _ _ Ev) as H1.
    pose proof (createIssue_dry_events _ _ _ _ _ _ _ Ec) as H2.
    unfold processIssue. unfold_monad. cbv beta. rewrite Ev. cbv beta iota.
    rewrite Ec. cbn [negb andb]. cbv beta iota.
    destruct o as [o|e]; intros [= _ _ <-].
    + apply every_app; [eapply every_impl; [|exact H1]; now intros []|].
      apply every_app; [eapply every_impl; [|exact H2]; now intros []|].
      apply every_nil.
    + apply every_app; [|apply every_cons; [reflexivity | apply every_nil]].
      apply every_app; [eapply every_impl; [|exact H1]; now intros []|].
      eapply every_impl; [|exact H2]. now intros [].
  - rewrite (processIssue_invalid _ _ _ _ _ _ _ _ _ _ _ _ Ev).
    pose proof (validateIssue_events _ _ _ _ _ _ _ _ _ Ev) as H1.
    intros [= _ _ <-].
    apply every_app; [eapply every_impl; [|exact H1]; now intros []|].
    apply every_cons; [reflexivity | apply every_nil].
Qed.

Lemma runLoop_dry octokit context count milestoneMap rest :
  forall st i (s : St) r s' log,
    runLoop octokit context count milestoneMap true st i rest s = (r, s', log) ->
    every isReadOnly log.
Proof.
  induction rest as [|x rest IH]; intros st i s r s' log H.
  - injection H as _ _ <-. apply every_nil.
  - cbn [runLoop] in H. unfold_monad.
    destruct (processIssue octokit context count milestoneMap true st i x s)
      as [[[st1|t] s1] ev1] eqn:Ep.
    + destruct (runLoop octokit context count milestoneMap true st1 (S i) rest s1)
        as [[r2 s2] ev2] eqn:El.
      injection H as _ _ <-.
      apply every_app; [eapply processIssue_dry; exact Ep | eapply IH; exact El].
    + injection H as _ _ <-. eapply processIssue_dry; exact Ep.
Qed.

Lemma getMilestoneMapping_readOnly octokit context (s : St) r s' log :
  getMilestoneMapping octokit context s = (r, s', log) -> every isReadOnly log.
Proof. unfold getMilestoneMapping. intros H. events_of H. Qed.

Lemma logResults_info rs :
  forall (s : St) r s' log, logResults rs s = (r, s', log) -> every isInfo log.
Proof.
  induction rs as [|x rs IH]; intros s r s' log H.
  - injection H as _ _ <-. apply every_nil.
  - cbn [logResults] in H. unfold logResult in H.
    unfold_monad; repeat case_match_hyp; simplify_eq;
      repeat first [apply every_nil | apply every_app
                   | apply every_cons; [reflexivity|] | eapply IH; eassumption].
Qed.

Lemma run_ok octokit context issues dryRun (s : St) :
  exists s' log, run octokit context issues dryRun s = (Ok tt, s', log).
Proof.
  unfold run. unfold tryCatch at 1.
  match goal with |- context [match ?body s with _ => _ end] =>
    destruct (body s) as [[[[]|t] s1] ev1] end.
  - now do 2 eexists.
  - unfold_monad. now do 2 eexists.
Qed.


(** X11. A dry run creates nothing.  In dry-run mode, whatever the records,
    no event of [run] is a creation request or a pause: the only requests
    that reach the service are the listing of the milestones and the
    collaborator checks. *)
Theorem run_dry_run_creates_nothing octokit context issues (s : St) :
  exists s' log,
    run octokit context issues true s = (Ok tt, s', log)
    /\ every isReadOnly log
    /\ Forall (fun e => match e with
                        | EvListMilestones _ _ _ | EvCheckCollaborator _ _ _ => True
                        | _ => False
                        end)
              (filter (fun e => Is_true (isRemoteCall e)) log).
Proof.
  destruct (run_ok octokit context issues true s) as (s' & log & Hrun).
  exists s', log. split; [exact Hrun|].
  assert (Hro : every isReadOnly log).
  { unfold run in Hrun. unfold_monad. cbn [negb andb] in Hrun.
    repeat case_match_hyp; simplify_eq;
      repeat first [ apply every_nil | apply every_app
                   | apply every_cons; [reflexivity|]
                   | eapply getMilestoneMapping_readOnly; eassumption
                   | eapply runLoop_dry; eassumption
                   | (eapply every_impl; [|eapply logResults_info; eassumption];
                      now intros []) ]. }
  split; [exact Hro|].
  apply Forall_forall. intros e He.
  apply list_elem_of_filter in He as [Hremote Hin].
  unfold every in Hro. rewrite Forall_forall in Hro. specialize (Hro e Hin).
  destruct e; try exact I; cbn in *; congruence || contradiction.
Qed.

End DryRun.

Section Titles.
Context {St : Type}.
Implicit Types (octokit : Octokit St) (context : Context).

Lemma createIssue_title octokit context issue dryRun (s : St) outcome s' log :
  createIssue octokit context issue dryRun s = (Ok outcome, s', log) ->
  outcomeTitle outcome = JStr (title issue).
Proof.
  unfold createIssue. intros H. unfold_monad.
  repeat case_match_hyp; simplify_eq; reflexivity.
Qed.

Lemma processIssue_outcome octokit context count milestoneMap dryRun st i issue (s : St) :
  exists r s' log,
    processIssue octokit context count milestoneMap dryRun st i issue s
    = (Ok (record st r), s', log)
    /\ ((isSuccess r = false
         /\ outcomeTitle r = Js.or (Js.optProp issue "title") (JStr "Unknown"))
        \/ exists raw,
            Js.prop issue "title" = Some (JStr raw)
            /\ Str.trim raw <> ""
            /\ outcomeTitle r = JStr (Str.trim raw)).
Proof.
  destruct (validateIssue octokit context issue i milestoneMap s)
    as [[[v|t] s1] ev1] eqn:Ev.
  - destruct (createIssue_ok octokit context v dryRun s1) as (o & s2 & ev2 & Ec).
    exists o.
    assert (Hrun : exists log,
               processIssue octokit context count milestoneMap dryRun st i issue s
               = (Ok (record st o), s2, log)).
    { unfold processIssue.
      destruct (negb dryRun && (Z.of_nat i <? Z.of_nat count - 1)) eqn:Epause,
        (isSuccess o) eqn:Eo.
      all: eexists; unfold_monad; cbv beta; rewrite Ev; cbv beta iota.
      all: rewrite Ec; cbv beta iota; rewrite ?Eo; unfold record; rewrite ?Eo;
        reflexivity. }
    destruct Hrun as [log Hrun]. exists s2, log. split; [exact Hrun|]. right.
    destruct (Js.prop issue "title") as [t|] eqn:Hprop;
      [|unfold validateIssue in Ev; rewrite Hprop in Ev; discriminate Ev].
    destruct (validTitle t) as [raw|] eqn:Hvalid;
      [|unfold validateIssue in Ev; rewrite Hprop, Hvalid in Ev; discriminate Ev].
    destruct (validateIssue_valid_title octokit context issue i milestoneMap s t raw
                Hprop Hvalid)
      as (valid & s1' & ev1' & rm & ev2' & _ & _ & _ & _ & Hrun').
    rewrite Hrun' in Ev. destruct rm as [resolved|]; [|discriminate Ev].
    injection Ev as <- _ _.
    exists raw. rewrite (validTitle_string t raw Hvalid). split; [reflexivity|].
    split.
    + unfold validTitle in Hvalid. destruct (negb _); [discriminate|].
      destruct t; try discriminate.
      destruct (String.eqb_spec (Str.trim s0) ""); [discriminate|].
      now injection Hvalid as ->.
    + apply (createIssue_title _ _ _ _ _ _ _ _ Ec).
  - do 3 eexists. split; [exact (processIssue_invalid _ _ _ _ _ _ _ _ _ _ _ _ Ev)|].
    left. split; reflexivity.
Qed.

(** X12. Outcomes keep the order of the records and each carries the title
    of its own record.  For a record [x] at any position, the outcome at
    that position is either a failure whose title is the title read back
    from [x] (or [Unknown]), or it carries the trimmed title of [x], which
    is then a non-blank string; a success is always of the second kind. *)
Theorem runLoop_titles octokit context milestoneMap dryRun pre x post (s : St) :
  let count := length (pre ++ x :: post) in
  exists st s' log r,
    runLoop octokit context count milestoneMap dryRun
            {| results := []; successCount := 0; failureCount := 0 |} 0
            (pre ++ x :: post) s
    = (Ok st, s', log)
    /\ results st !! length pre = Some r
    /\ ((isSuccess r = false
         /\ outcomeTitle r = Js.or (Js.optProp x "title") (JStr "Unknown"))
        \/ exists raw,
            Js.prop x "title" = Some (JStr raw)
            /\ Str.trim raw <> ""
            /\ outcomeTitle r = JStr (Str.trim raw)).
Proof.
  intros count.
  set (st0 := {| results := []; successCount := 0; failureCount := 0 |}).
  destruct (runLoop_prefix octokit context count milestoneMap dryRun pre st0 0%nat s)
    as (rs1 & s1 & ev1 & H1 & L1 & Happ).
  destruct (processIssue_outcome octokit context count milestoneMap dryRun
              (foldl record st0 rs1) (length pre) x s1)
    as (r & s2 & ev2 & H2 & Htitle).
  destruct (runLoop_prefix octokit context count milestoneMap dryRun post
              (record (foldl record st0 rs1) r) (S (length pre)) s2)
    as (rs3 & s3 & ev3 & H3 & L3 & _).
  exists (foldl record (record (foldl record st0 rs1) r) rs3), s3,
    (ev1 ++ ev2 ++ ev3), r.
  split; [|split; [|exact Htitle]].
  - rewrite Happ. cbn [runLoop]. rewrite Nat.add_0_l.
    rewrite (bind_ok _ _ _ _ _ _ H2), H3. reflexivity.
  - rewrite results_foldl_record. cbn [record results].
    rewrite results_foldl_record. cbn [st0 results app].
    rewrite <- app_assoc, <- L1. now rewrite lookup_app_r, Nat.sub_diag by lia.
Qed.

End Titles.

(* ===================================================================== *)
(** ** The requests of a run and its final status *)
(* ===================================================================== *)

Section FinalStatus.
Context {St : Type}.
Implicit Types (octokit : Octokit St) (context : Context).

Lemma processIssue_record_events octokit context count milestoneMap dryRun st i issue
    (s : St) r s' log :
  processIssue octokit context count milestoneMap dryRun st i issue s = (r, s', log) ->
  every isRecordEvent log.
Proof.
  destruct (validateIssue octokit context issue i milestoneMap s)
    as [[[v|t] s1] ev1] eqn:Ev.
  - destruct (createIssue octokit context v dryRun s1) as [[o s2] ev2] eqn:Ec.
    pose proof (validateIssue_events _ _ _ _ _ _ _ _ _ Ev) as H1.
    pose proof (createIssue_events _ _ _ _ _ _ _ _ Ec) as H2.
    assert (H1' : every isRecordEvent ev1)
      by (eapply every_impl; [|exact H1]; now intros []).
    assert (H2' : every isRecordEvent ev2)
      by (eapply every_impl; [|exact H2]; now intros []).
    unfold processIssue. unfold_monad. cbv beta. rewrite Ev. cbv beta iota.
    rewrite Ec.
    destruct o as [o|e]; [destruct (negb dryRun && _)|]; cbv beta iota;
      intros [= _ _ <-]; eauto 10 with events.
  - rewrite (processIssue_invalid _ _ _ _ _ _ _ _ _ _ _ _ Ev).
    pose proof (validateIssue_events _ _ _ _ _ _ _ _ _ Ev) as H1.
    intros [= _ _ <-].
    apply every_app; [eapply every_impl; [|exact H1]; now intros []|].
    apply every_cons; [reflexivity | apply every_nil].
Qed.

Lemma runLoop_record_events octokit context count milestoneMap dryRun rest :
  forall st i (s : St) r s' log,
    runLoop octokit context count milestoneMap dryRun st i rest s = (r, s', log) ->
    every isRecordEvent log.
Proof.
  induction rest as [|x rest IH]; intros st i s r s' log H.
  - injection H as _ _ <-. apply every_nil.
  - cbn [runLoop] in H. unfold_monad.
    destruct (processIssue octokit context count milestoneMap dryRun st i x s)
      as [[[st1|t] s1] ev1] eqn:Ep.
    + destruct (runLoop octokit context count milestoneMap dryRun st1 (S i) rest s1)
        as [[r2 s2] ev2] eqn:El.
      injection H as _ _ <-.
      apply every_app; [eapply processIssue_record_events; exact Ep
                       | eapply IH; exact El].
    + injection H as _ _ <-. eapply processIssue_record_events; exact Ep.
Qed.

Lemma getMilestoneMapping_calls octokit context (s : St) r s' log :
  getMilestoneMapping octokit context s = (r, s', log) ->
  filter (fun e => Is_true (isRemoteCall e)) log
  = [EvListMilestones (owner context) (repo context) "all"].
Proof.
  unfold getMilestoneMapping. unfold_monad.
  destruct (listMilestones octokit (owner context) (repo context) "all" s)
    as [[data|e] s1]; now intros [= _ _ <-].
Qed.

Lemma closing_calls st dryRun (detail : Res unit * list Event) :
  every isInfo (snd detail) ->
  filter (fun e => Is_true (isRemoteCall e)) (closing st dryRun detail) = [].
Proof.
  intros Hinfo.
  apply (every_filter_false (fun e => negb (isRemoteCall e)) isRemoteCall);
    [intros e; now destruct (isRemoteCall e)|].
  unfold closing. apply every_app; [eauto 10 with events|]. apply every_app.
  - eapply every_impl; [|exact Hinfo]. now intros [].
  - destruct (fst detail); [destruct (_ && _)|]; eauto with events.
Qed.

(** X14. In a run over a non-empty list of records the first request is
    the listing of the milestones, sent once; every later request is a
    collaborator check or the creation of an issue. *)
Theorem run_requests octokit context issues dryRun (s : St) :
  issues <> [] ->
  exists s' log calls,
    run octokit context issues dryRun s = (Ok tt, s', log)
    /\ filter (fun e => Is_true (isRemoteCall e)) log
       = EvListMilestones (owner context) (repo context) "all" :: calls
    /\ Forall (fun e => match e with
                        | EvCheckCollaborator _ _ _ | EvIssuesCreate _ => True
                        | _ => False
                        end) calls.
Proof.
  intros Hne.
  destruct (getMilestoneMapping_ok octokit context s) as (m & s0 & ev0 & Hm).
  set (st0 := {| results := []; successCount := 0; failureCount := 0 |}).
  destruct (runLoop_prefix octokit context (length issues) m dryRun issues st0 0%nat s0)
    as (rs & s1 & ev1 & Hl & Hlen & _).
  pose proof (results_foldl_record rs st0) as Hres. cbn [st0 results app] in Hres.
  assert (Hnonempty : results (foldl record st0 rs) <> []).
  { rewrite Hres. destruct rs, issues; simpl in *; congruence. }
  destruct (run_events octokit context issues dryRun s m s0 ev0 _ s1 ev1
              Hne Hm Hl Hnonempty) as (detail & Hlog & Hrun).
  pose proof (logResults_info _ _ _ _ _ Hlog) as Hinfo.
  pose proof (runLoop_record_events _ _ _ _ _ _ _ _ _ _ _ _ Hl) as Hloop.
  exists s1. eexists. exists (filter (fun e => Is_true (isRemoteCall e)) ev1).
  split; [exact Hrun|]. split.
  - rewrite filter_cons_False by exact id.
    rewrite !filter_app, (getMilestoneMapping_calls _ _ _ _ _ _ Hm).
    now rewrite closing_calls, app_nil_r by exact Hinfo.
  - apply Forall_forall. intros e He.
    apply list_elem_of_filter in He as [Hremote Hin].
    unfold every in Hloop. rewrite Forall_forall in Hloop. specialize (Hloop e Hin).
    destruct e; try exact I; cbn in *; congruence || contradiction.
Qed.

Lemma toStr_none_truthy v : Js.toStr v = None -> Js.truthy v = true.
Proof. destruct v as [| |b|n|str| |]; try discriminate; reflexivity. Qed.

Lemma titleOf_unprintable x r :
  titleOf x r -> (Js.toStr (outcomeTitle r) = None <-> unprintableTitle x).
Proof.
  unfold unprintableTitle. intros [[_ ->]|(raw & Hprop & _ & ->)].
  - unfold Js.or. destruct (Js.truthy (Js.optProp x "title")) eqn:Et; [reflexivity|].
    split; [discriminate|]. intros H. apply toStr_none_truthy in H. congruence.
  - unfold Js.optProp. rewrite Hprop. cbn. split; discriminate.
Qed.

Lemma runLoop_titleOf octokit context count milestoneMap dryRun rest :
  forall st i (s : St),
  exists rs s' log,
    runLoop octokit context count milestoneMap dryRun st i rest s
    = (Ok (foldl record st rs), s', log)
    /\ Forall2 titleOf rest rs.
Proof.
  induction rest as [|x rest IH]; intros st i s.
  - exists [], s, []. split; [reflexivity | constructor].
  - destruct (processIssue_outcome octokit context count milestoneMap dryRun st i x s)
      as (r & s1 & ev1 & Hp & Ht).
    destruct (IH (record st r) (S i) s1) as (rs & s2 & ev2 & Hl & Hall).
    exists (r :: rs), s2, (ev1 ++ ev2). split; [|now constructor].
    cbn [runLoop foldl]. rewrite (bind_ok _ _ _ _ _ _ Hp). now rewrite Hl.
Qed.

Lemma logResult_run x (s : St) :
  exists log,
    logResult x s
    = (match Js.toStr (outcomeTitle x) with
       | Some _ => Ok tt
       | None => Throw (JsError "Cannot convert object to primitive value")
       end, s, log).
Proof.
  unfold logResult, toStringM. destruct x as [t n u|t|t e]; cbn [outcomeTitle Js.toStr].
  - unfold_monad. now eexists.
  - unfold_monad. now eexists.
  - destruct (Js.toStr t); [|unfold_monad; now eexists].
    destruct (Str.nonEmpty e); unfold_monad; now eexists.
Qed.

Lemma logResults_throws rs :
  forall s : St,
  exists r log,
    logResults rs s = (r, s, log)
    /\ (Exists (fun o => Js.toStr (outcomeTitle o) = None) rs ->
        r = Throw (JsError "Cannot convert object to primitive value"))
    /\ (~ Exists (fun o => Js.toStr (outcomeTitle o) = None) rs -> r = Ok tt).
Proof.
  induction rs as [|x rs IH]; intros s.
  - exists (Ok tt), []. split; [reflexivity|]. split; [|reflexivity].
    intros H. inversion H.
  - destruct (IH s) as (r & log & Hl & Hthrow & Hok).
    destruct (logResult_run x s) as [log1 H1].
    cbn [logResults].
    destruct (Js.toStr (outcomeTitle x)) as [shown|] eqn:Ex.
    + assert (Hrest : Exists (fun o => Js.toStr (outcomeTitle o) = None) (x :: rs)
                      <-> Exists (fun o => Js.toStr (outcomeTitle o) = None) rs).
      { rewrite Exists_cons. split; [intros [H|H]; [congruence | exact H] | auto]. }
      rewrite (bind_ok _ _ _ _ _ _ H1), Hl.
      do 2 eexists. split; [reflexivity|]. rewrite Hrest. split; assumption.
    + rewrite (bind_throw _ _ _ _ _ _ H1).
      do 2 eexists. split; [reflexivity|]. split; [reflexivity|].
      intros H. exfalso. apply H. now left.
Qed.

End FinalStatus.

Section StatusExactly.
Context {St : Type}.
Implicit Types (octokit : Octokit St) (context : Context).

Lemma titleOf_Exists issues rs :
  Forall2 titleOf issues rs ->
  (Exists unprintableTitle issues
   <-> Exists (fun o => Js.toStr (outcomeTitle o) = None) rs).
Proof.
  induction 1 as [|x r issues rs Hx _ IH]; [split; intros H; inversion H|].
  rewrite !Exists_cons, IH, (titleOf_unprintable x r Hx). reflexivity.
Qed.

(** X15. When the run is reported as failed, exactly.  Take a non-empty
    list of records.  If the title of some record cannot be converted to a
    string (an object with a property [toString], or an array holding
    one), logging the results throws and the last event of [run] is
    [setFailed("Action failed: Cannot convert object to primitive value")],
    in a dry run too.  If there is no such record, [run] calls [setFailed]
    exactly when at least one record failed and the run is not a dry
    run. *)
Theorem run_status_exactly octokit context issues dryRun (s : St) :
  issues <> [] ->
  exists milestoneMap s0 ev0 st s1 ev1 log,
    getMilestoneMapping octokit context s = (Ok milestoneMap, s0, ev0)
    /\ runLoop octokit context (length issues) milestoneMap dryRun
               {| results := []; successCount := 0; failureCount := 0 |} 0 issues s0
       = (Ok st, s1, ev1)
    /\ run octokit context issues dryRun s = (Ok tt, s1, log)
    /\ (Exists unprintableTitle issues ->
        last log
        = Some (EvSetFailed "Action failed: Cannot convert object to primitive value"))
    /\ (~ Exists unprintableTitle issues ->
        ((exists msg, In (EvSetFailed msg) log)
         <-> (0 < failureCount st)%nat /\ dryRun = false)).
Proof.
  intros Hne.
  destruct (run_overall_status octokit context issues dryRun s Hne)
    as (m & s0 & ev0 & st & s1 & ev1 & log & Hm & Hl & Hrun & _ & Hstatus).
  exists m, s0, ev0, st, s1, ev1, log.
  split; [exact Hm|]. split; [exact Hl|]. split; [exact Hrun|].
  set (st0 := {| results := []; successCount := 0; failureCount := 0 |}) in *.
  destruct (runLoop_titleOf octokit context (length issues) m dryRun issues st0 0%nat s0)
    as (rs & s1' & ev1' & Hl' & Hall).
  rewrite Hl in Hl'. injection Hl' as -> _ _.
  pose proof (results_foldl_record rs st0) as Hres. cbn [st0 results app] in Hres.
  pose proof (titleOf_Exists issues rs Hall) as Hex.
  destruct (logResults_throws rs s1) as (r & detail & Hlog & Hthrow & Hok).
  split.
  - intros Hbad. apply Hex, Hthrow in Hbad. subst r.
    assert (Hnonempty : results (foldl record st0 rs) <> []).
    { rewrite Hres. inversion Hall; subst; congruence. }
    destruct (run_events octokit context issues dryRun s m s0 ev0 _ s1 ev1
                Hne Hm Hl Hnonempty) as ([r' detail'] & Hlog' & Hrun').
    cbn [fst snd] in Hlog'. rewrite Hres, Hlog in Hlog'.
    injection Hlog' as <- <-.
    rewrite Hrun in Hrun'. injection Hrun' as ->.
    unfold closing. cbn [fst snd thrownMessage].
    rewrite app_comm_cons, !app_assoc. apply last_snoc.
  - intros Hgood. apply Hstatus with (detail := detail).
    rewrite Hres. rewrite Hlog. f_equal. f_equal.
    apply Hok. now rewrite <- Hex.
Qed.

End StatusExactly.

(* ===================================================================== *)
(** ** The further statements at work on the mock client *)
(* ===================================================================== *)

(** The two assignees of a record are checked, in their order. *)
Lemma validateIssue_requests_example :
  exists r s' log,
    validateIssue mockOctokit mockContext
      (JObj [("title", JStr " A "); ("assignees", JStr "alice;bob")]) 0 ∅ 0%nat
    = (r, s', log)
    /\ filter (fun e => Is_true (isRemoteCall e)) log
       = [EvCheckCollaborator "test-owner" "test-repo" "alice";
          EvCheckCollaborator "test-owner" "test-repo" "bob"].
Proof.
  destruct (validateIssue_requests mockOctokit mockContext
              (JObj [("title", JStr " A "); ("assignees", JStr "alice;bob")])
              0 ∅ 0%nat) as (r & s' & log & Hrun & _ & Hcalls).
  exists r, s', log. split; [exact Hrun|].
  apply (Hcalls " A "); [reflexivity | discriminate].
Defined.

(** Labels written with both separators and stray blanks. *)
Lemma parseLabels_wellformed_example :
  Forall (fun l => Str.trim l = l /\ avoids "," l = true /\ avoids ";" l = true)
         (parseLabels (JStr " bug ; ui,, docs")).
Proof.
  destruct (parseLabels_wellformed (JStr " bug ; ui,, docs")) as (_ & _ & Hstr & _).
  apply (Hstr " bug ; ui,, docs"). reflexivity.
Defined.



(** No pause in a dry run over the three records. *)
Lemma runLoop_pauses_example :
  exists st s' log,
    runLoop mockOctokit mockContext (length threeRecords) ∅ true
            {| results := []; successCount := 0; failureCount := 0 |} 0
            threeRecords 0%nat
    = (Ok st, s', log)
    /\ filter (fun e => Is_true (isSleep e)) log = [].
Proof.
  destruct (runLoop_pauses mockOctokit mockContext ∅ true threeRecords 0%nat)
    as (st & s' & log & Hrun & _ & Hdry).
  exists st, s', log. split; [exact Hrun | exact (Hdry eq_refl)].
Defined.

(** The requests of the run over the three records. *)
Lemma run_requests_example :
  threeRecords <> []
  /\ exists s' log calls,
      run mockOctokit mockContext threeRecords false 0%nat = (Ok tt, s', log)
      /\ filter (fun e => Is_true (isRemoteCall e)) log
         = EvListMilestones "test-owner" "test-repo" "all" :: calls.
Proof.
  assert (Hne : threeRecords <> []) by discriminate.
  split; [exact Hne|].
  destruct (run_requests mockOctokit mockContext threeRecords false 0%nat Hne)
    as (s' & log & calls & Hrun & Hcalls & _).
  exists s', log, calls. split; assumption.
Defined.

(** A dry run over one record whose title is an object with a property
    [toString], and a dry run over the three records. *)
Lemma run_status_example :
  (exists s' log,
      run mockOctokit mockContext
          [JObj [("title", JObj [("toString", JNum (Int 1))])]] true 0%nat
      = (Ok tt, s', log)
      /\ last log
         = Some (EvSetFailed "Action failed: Cannot convert object to primitive value"))
  /\ exists s' log,
      run mockOctokit mockContext threeRecords true 0%nat = (Ok tt, s', log)
      /\ forall msg, ~ In (EvSetFailed msg) log.
Proof.
  split.
  - destruct (run_status_exactly mockOctokit mockContext
                [JObj [("title", JObj [("toString", JNum (Int 1))])]] true 0%nat
                ltac:(discriminate))
      as (m & s0 & ev0 & st & s1 & ev1 & log & _ & _ & Hrun & Hbad & _).
    exists s1, log. split; [exact Hrun|]. apply Hbad. left. reflexivity.
  - destruct (run_status_exactly mockOctokit mockContext threeRecords true 0%nat
                ltac:(discriminate))
      as (m & s0 & ev0 & st & s1 & ev1 & log & _ & _ & Hrun & _ & Hgood).
    exists s1, log. split; [exact Hrun|]. intros msg Hin.
    assert (Hprintable : ~ Exists unprintableTitle threeRecords).
    { intros H. unfold threeRecords in H.
      repeat (apply Exists_cons in H as [H|H]; [discriminate H|]).
      inversion H. }
    destruct (proj1 (Hgood Hprintable) (ex_intro _ msg Hin)) as [_ Hdry].
    discriminate Hdry.
Defined.
